(** * munchies: command-line dispatch (CommandRunner, CommandSpec,
      NamedCommand, CommandUtil and the error classes)

    A shallow embedding of the TypeScript sources.  JavaScript strings are
    modelled as [string]; the case mappings of the engine, which the code
    applies to command names, are parameters, as the libraries the code
    calls are.  JavaScript objects used as maps are [gmap string _], arrays
    are lists,
    exceptions with a result type, and the observable behaviour of [run] as
    the list of events it performs together with the exception it lets
    escape, if any. *)

From Stdlib Require Import ZArith Ascii String List Bool Lia.
From stdpp Require Import base option list strings gmap fin_maps.

Local Open Scope string_scope.
Local Open Scope Z_scope.

(** ** JavaScript strings *)

Module Js.

Definition isUpper (c : ascii) : bool :=
  ((65 <=? N_of_ascii c) && (N_of_ascii c <=? 90))%N.

Definition isLower (c : ascii) : bool :=
  ((97 <=? N_of_ascii c) && (N_of_ascii c <=? 122))%N.

Definition lowerChar (c : ascii) : ascii :=
  if isUpper c then ascii_of_N (N_of_ascii c + 32) else c.

Definition upperChar (c : ascii) : ascii :=
  if isLower c then ascii_of_N (N_of_ascii c - 32) else c.

(** [s.toLowerCase()] for a text of ASCII characters: the letters A to Z
    are folded.  It serves where the code compares with an ASCII text, and
    as the engine's mapping in the examples. *)
Fixpoint toLowerCase (s : string) : string :=
  match s with
  | EmptyString => EmptyString
  | String c r => String (lowerChar c) (toLowerCase r)
  end.

(** [s.toUpperCase()] for a text of ASCII characters. *)
Fixpoint toUpperCase (s : string) : string :=
  match s with
  | EmptyString => EmptyString
  | String c r => String (upperChar c) (toUpperCase r)
  end.

(** [s.substr(n)] for [0 <= n] *)
Fixpoint substr (s : string) (n : nat) : string :=
  match n, s with
  | O, _ => s
  | S _, EmptyString => EmptyString
  | S k, String _ r => substr r k
  end.

(** the one-character strings for a double quote and a line feed *)
Definition dquote : string := String "034"%char EmptyString.
Definition LF : string := String "010"%char EmptyString.

(** [s[0] === '-'] ([s[0]] is [undefined] for the empty string) *)
Definition firstIsDash (s : string) : bool :=
  match s with
  | String c _ => Ascii.eqb c "-"%char
  | EmptyString => false
  end.

(** The values that reach this code: option values and positionals
    produced by the option parser, defaults declared by commands.  A number
    is given by the text that [String] yields for it ([1e+21], [0.5], [NaN];
    [-0] is given as [0], as [String] prints it): the code applies [String]
    and a truth test to a value and nothing else. *)
Inductive Value :=
| Undefined
| Bool (b : bool)
| Num (text : string)
| Str (s : string).

(** [String(v)] *)
Definition String_ (v : Value) : string :=
  match v with
  | Undefined => "undefined"
  | Bool true => "true"
  | Bool false => "false"
  | Num text => text
  | Str s => s
  end.

(** truthiness, as tested by [if (v)] *)
Definition truthy (v : Value) : bool :=
  match v with
  | Undefined => false
  | Bool b => b
  | Num text => negb (String.eqb text "0" || String.eqb text "NaN")
  | Str s => negb (String.eqb s EmptyString)
  end.

(** Two ASCII characters that differ at most in letter case. *)
Definition sameLetter (a b : ascii) : Prop :=
  a = b \/ (isUpper a = true /\ b = lowerChar a)
        \/ (isUpper b = true /\ a = lowerChar b).

(** Letter-case variants in the ASCII letters: equal length, position-wise
    the same letter. *)
Inductive caseVariant : string -> string -> Prop :=
| cv_nil : caseVariant EmptyString EmptyString
| cv_cons a b s t :
    sameLetter a b -> caseVariant s t ->
    caseVariant (String a s) (String b t).

End Js.

(** ** errors.ts *)

(** The class of an error object; [Error_] is the built-in [Error],
    [TypeError] the built-in raised by a call on [undefined]. *)
Inductive ErrorClass :=
| Error_
| TypeError
| CommandError
| CommandUsageError
| UnexpectedArgError.

Record JsError := mkError { cls : ErrorClass; message : string }.

(** [class B extends A]: the direct superclass. *)
Definition extends (c : ErrorClass) : option ErrorClass :=
  match c with
  | Error_ => None
  | TypeError => Some Error_
  | CommandError => Some Error_
  | CommandUsageError => Some CommandError
  | UnexpectedArgError => Some CommandUsageError
  end.

Definition ErrorClass_eqb (a b : ErrorClass) : bool :=
  match a, b with
  | Error_, Error_ | TypeError, TypeError | CommandError, CommandError
  | CommandUsageError, CommandUsageError
  | UnexpectedArgError, UnexpectedArgError => true
  | _, _ => false
  end.

Fixpoint isSubclass (fuel : nat) (c target : ErrorClass) : bool :=
  ErrorClass_eqb c target ||
  match fuel, extends c with
  | S k, Some parent => isSubclass k parent target
  | _, _ => false
  end.

(** [err instanceof C] (the chain of [extends] has at most four links) *)
Definition instanceof (err : JsError) (C : ErrorClass) : bool :=
  isSubclass 4 (cls err) C.

Definition new_Error (msg : string) : JsError := mkError Error_ msg.
Definition new_CommandError (msg : string) : JsError := mkError CommandError msg.
Definition new_CommandUsageError (msg : string) : JsError :=
  mkError CommandUsageError msg.
Definition new_UnexpectedArgError (arg : string) : JsError :=
  mkError UnexpectedArgError
    ("UnexpectedArgument: " ++ Js.dquote ++ arg ++ Js.dquote).

(** The other errors file of the repository declares the same three classes
    below an [ExtendableError] that itself extends [Error]; [instanceof]
    answers the same on both. *)

(** ** Exceptions *)

Inductive Result (A : Type) :=
| OK (a : A)
| Throw (e : JsError).
Arguments OK {A} a.
Arguments Throw {A} e.

Definition Result_bind {A B} (r : Result A) (k : A -> Result B) : Result B :=
  match r with
  | OK a => k a
  | Throw e => Throw e
  end.

Notation "'try!' x <- r ; k" := (Result_bind r (fun x => k))
  (at level 60, x name, r at next level, right associativity).

(** A call on [undefined], or of a method the receiver does not have. *)
Definition typeError : JsError := mkError TypeError "TypeError".

(** ** Minimist option configurations and parsed arguments *)

(** [string | string[]] *)
Inductive Names :=
| One (s : string)
| Many (l : list string).

(** An entry of the [boolean] array: a flag name, or the [true]/[false] a
    contributor gave for [boolean] and [push] appended. *)
Inductive BoolItem :=
| Flag (s : string)
| AllFlags (b : bool).

(** [boolean | string | string[]] *)
Inductive Booleans :=
| BoolAll (b : bool)
| BoolOne (s : string)
| BoolMany (l : list BoolItem).

(** [Minimist.Opts]; a field that is [None] is absent ([undefined]).
    [others] holds the remaining keys ([stopEarly], [--], [unknown]). *)
Record Opts := mkOpts {
  alias : option (gmap string Names);
  boolean : option Booleans;
  default : option (gmap string Js.Value);
  string_ : option Names;
  others : gmap string Js.Value
}.

(** [Minimist.ParsedArgs]: the option values by name, and [_], the
    arguments that are not options. *)
Record ParsedArgs := mkArgs {
  options : gmap string Js.Value;
  args_ : list Js.Value
}.

(** [args.help] *)
Definition help (args : ParsedArgs) : Js.Value :=
  match options args !! "help" with
  | Some v => v
  | None => Js.Undefined
  end.

(** [Object.assign(target, source)]: the source's entries win. *)
Definition Object_assign {V} (target source : gmap string V) : gmap string V :=
  source ∪ target.

(** [String(array)] as [String.prototype.concat] applies it: the entries
    joined by commas. *)
Fixpoint join (l : list string) : string :=
  match l with
  | [] => EmptyString
  | [s] => s
  | s :: r => s ++ "," ++ join r
  end.

Definition itemText (i : BoolItem) : string :=
  match i with
  | Flag s => s
  | AllFlags b => Js.String_ (Js.Bool b)
  end.

(** ** CommandUtil.ts *)

Module CommandUtil.

(** [case 'alias'] *)
Definition addAlias (toOptions fromOptions : Opts) : Result Opts :=
  match alias fromOptions with
  | None => OK toOptions
  | Some value =>
      match alias toOptions with
      | None => Throw typeError
      | Some target =>
          OK (mkOpts (Some (Object_assign target value)) (boolean toOptions)
                     (default toOptions) (string_ toOptions) (others toOptions))
      end
  end.

(** [case 'boolean']: [boolNames] is whatever [toOptions.boolean] holds;
    on a string, [concat] is the string's and [push] does not exist. *)
Definition addBoolean (toOptions fromOptions : Opts) : Result Opts :=
  let set b := mkOpts (alias toOptions) (Some b) (default toOptions)
                      (string_ toOptions) (others toOptions) in
  match boolean fromOptions with
  | None => OK toOptions
  | Some (BoolMany value) =>
      match boolean toOptions with
      | Some (BoolMany boolNames) => OK (set (BoolMany (boolNames ++ value)))
      | Some (BoolOne s) => OK (set (BoolOne (s ++ join (map itemText value))))
      | _ => Throw typeError
      end
  | Some (BoolOne value) =>
      match boolean toOptions with
      | Some (BoolMany boolNames) => OK (set (BoolMany (boolNames ++ [Flag value])))
      | _ => Throw typeError
      end
  | Some (BoolAll value) =>
      match boolean toOptions with
      | Some (BoolMany boolNames) =>
          OK (set (BoolMany (boolNames ++ [AllFlags value])))
      | _ => Throw typeError
      end
  end.

(** [case 'default'] *)
Definition addDefault (toOptions fromOptions : Opts) : Result Opts :=
  match default fromOptions with
  | None => OK toOptions
  | Some value =>
      let target := match default toOptions with
                    | Some d => d
                    | None => ∅
                    end in
      OK (mkOpts (alias toOptions) (boolean toOptions)
                 (Some (Object_assign target value)) (string_ toOptions)
                 (others toOptions))
  end.

(** [case 'string']: an absent or empty [toOptions.string] becomes [[]]. *)
Definition addString (toOptions fromOptions : Opts) : Result Opts :=
  let set n := mkOpts (alias toOptions) (boolean toOptions) (default toOptions)
                      (Some n) (others toOptions) in
  match string_ fromOptions with
  | None => OK toOptions
  | Some value =>
      let stringNames := match string_ toOptions with
                         | None | Some (One EmptyString) => Many []
                         | Some n => n
                         end in
      match value, stringNames with
      | One v, Many l => OK (set (Many (l ++ [v])))
      | One v, One _ => Throw typeError
      | Many v, Many l => OK (set (Many (l ++ v)))
      | Many v, One s => OK (set (One (s ++ join v)))
      end
  end.

(** [addOptions(toOptions, fromOptions)].  The loop visits the keys of
    [fromOptions]; each of the four cases touches its own field of
    [toOptions], so the order of the keys does not show in the result, and
    the [default:] case assigns [fromOptions[key]] to itself, so the keys in
    [others] leave [toOptions] as it is.  When a case throws, the result is
    the exception; what the loop had merged before is not kept here. *)
Definition addOptions (toOptions fromOptions : Opts) : Result Opts :=
  try! o <- addAlias toOptions fromOptions;
  try! o <- addBoolean o fromOptions;
  try! o <- addDefault o fromOptions;
  addString o fromOptions.

(** [nextNonOptionArg(args)]: [null] when [args._] is empty, else the
    value that [args._.shift()] takes off the front; with it, [args] as the
    call leaves it. *)
Definition nextNonOptionArg (args : ParsedArgs) : option Js.Value * ParsedArgs :=
  match args_ args with
  | [] => (None, args)
  | arg :: rest => (Some arg, mkArgs (options args) rest)
  end.

(** The question that [confirm(message, next)] hands to [Prompt.get]. *)
Record Question := mkQuestion {
  q_name : string;
  q_message : string;
  q_default : string
}.

Definition confirmQuestion (message : string) : Question :=
  mkQuestion "yesno" (message ++ " (y/n)") "n".

(** The function that [confirm] gives [Prompt.get] to call back: [err] is
    the prompt's error, [result] the [yesno] of the prompt's result, [None]
    where the prompt hands no result.  It returns what it calls [next]
    with: the error argument ([null] is [None]) and [confirmed].  The
    answer is compared with [y] and [yes], to which only their variants in
    the ASCII letters are folded: the folding of the ASCII letters decides
    as the engine's. *)
Definition confirmReply (err : option JsError) (result : option string)
  : Result (option JsError * bool) :=
  match result with
  | None => Throw typeError
  | Some yesno =>
      let answer := Js.toLowerCase yesno in
      OK (None, String.eqb answer "y" || String.eqb answer "yes")
  end.

End CommandUtil.

(** ** The external collaborators *)

(** The option parser ([minimist]) and the line wrapper
    ([OptionHelp.wrapText]) are libraries the repository calls;
    [toLowerCase] and [toUpperCase] are the engine's
    [String.prototype.toLowerCase] and [String.prototype.toUpperCase], which
    map every cased letter, not the ASCII ones only. *)
Class Externals := {
  Minimist : list string -> Opts -> ParsedArgs;
  wrapText : string -> Z -> bool -> string;
  toLowerCase : string -> string;
  toUpperCase : string -> string
}.

(** What a hook or [run] does to the outside: a write to standard output,
    or a call of the completion callback [next], with or without an error.
    The callback is the caller's; in [run] it is taken to return, and
    [runWith] is [run] for a callback that may throw. *)
Inductive Effect :=
| stdout_write (text : string)
| next (err : option JsError).

(** ** NamedCommand.ts *)

Module NamedCommand.

(** A command instance, as its class defines the hooks.  [parseArgs]
    changes [args] in place or throws: it is given as the final value of
    [args].  [doCommand] is given as the effects it performs, in order
    (now or after a suspension), and the exception it throws, if any.
    [getHelp] is [None] where the class inherits the base method. *)
Record t := mk {
  addOptions : Opts -> Result Opts;
  parseArgs : ParsedArgs -> Result ParsedArgs;
  doCommand : ParsedArgs -> list Effect * option JsError;
  getHelp : option (Z -> string)
}.

(** The base class: [addOptions] and [parseArgs] do nothing. *)
Definition base_addOptions (options : Opts) : Result Opts := OK options.
Definition base_parseArgs (args : ParsedArgs) : Result ParsedArgs := OK args.

(** [error(message)] and [usageError(message)] without format arguments *)
Definition error (msg : string) : JsError := new_CommandError msg.
Definition usageError (msg : string) : JsError := new_CommandUsageError msg.

End NamedCommand.

(** ** CommandSpec (in CommandRunner.ts) *)

Module CommandSpec.

Record t := mk {
  _name : string;
  _normName : string;
  _syntax : string;
  _summary : string;
  _firstOfGroup : bool;
  createCommand : NamedCommand.t
}.

(** The leading run of characters other than a space. *)
Fixpoint word (s : string) : string :=
  match s with
  | EmptyString => EmptyString
  | String c r => if Ascii.eqb c " "%char then EmptyString else String c (word r)
  end.

(** [syntax.match(/[^ ]+/)]: the first such run that is not empty. *)
Fixpoint firstWord (s : string) : option string :=
  match s with
  | EmptyString => None
  | String c r => if Ascii.eqb c " "%char then firstWord r else Some (word s)
  end.

(** The constructor; [_firstOfGroup] is left unset, which reads as false. *)
Definition new `{Externals} (syntax summary : string) (factory : NamedCommand.t)
  : Result t :=
  match firstWord syntax with
  | None => Throw (new_Error ("'" ++ syntax ++ "' is missing a command name"))
  | Some name =>
      if Js.firstIsDash name
      then Throw (new_Error ("Command name '" ++ name ++ " cannot start with a dash"))
      else OK (mk name (toLowerCase name) syntax summary false factory)
  end.

Definition getName (spec : t) : string := _name spec.
Definition getSyntax (spec : t) : string := _syntax spec.
Definition getSummary (spec : t) : string := _summary spec.

(** [spec._firstOfGroup = b] *)
Definition setFirstOfGroup (b : bool) (spec : t) : t :=
  mk (_name spec) (_normName spec) (_syntax spec) (_summary spec) b
     (createCommand spec).

End CommandSpec.

(** ** CommandRunner.ts *)

(** The steps of [run] that the outside can tell apart, in the order they
    happen: the calls of the factory, of the hooks and of the option parser,
    and the effects. *)
Inductive Event :=
| CreateCommand (spec : CommandSpec.t)
| AddOptions (spec : CommandSpec.t)
| AddDefaultOptions
| CallMinimist (argv : list string) (config : Opts)
| ParseArgs (spec : CommandSpec.t) (args : ParsedArgs) (r : Result ParsedArgs)
| ParseDefaultArgs (args : ParsedArgs) (r : Result ParsedArgs)
| DoCommand (spec : CommandSpec.t) (args : ParsedArgs)
| DoDefaultCommand (args : ParsedArgs)
| Do (e : Effect).

(** A run: its events, and whether it returned or let an exception escape. *)
Definition Run : Type := list Event * Result unit.

Definition after (evs : list Event) (r : Run) : Run :=
  ((evs ++ fst r)%list, snd r).

(** The effects of an execution hook, as events of the run. *)
Definition hookRun (h : list Effect * option JsError) : Run :=
  (map Do (fst h), match snd h with Some e => Throw e | None => OK tt end).

(** A completion callback that may throw: [callback k err] is the
    exception that its call number [k] (from 0) throws when it is given
    [err], and [None] when that call returns. *)
Definition Callback : Type := nat -> option JsError -> option JsError.

(** The outcome of a function that ends by a call: it throws what the call
    throws, and returns when the call returns. *)
Definition thrown (exception : option JsError) : Result unit :=
  match exception with
  | Some err => Throw err
  | None => OK tt
  end.

Module CommandRunner.

Definition DEFAULT_WRAP_WIDTH : Z := 80.

Record Options := mkOptions { opt_helpWrapWidth : option Z }.

(** The methods a subclass may override; [None] where it inherits. *)
Record Overrides := mkOverrides {
  override_addDefaultOptions : option (Opts -> Result Opts);
  override_parseDefaultArgs : option (ParsedArgs -> Result ParsedArgs);
  override_doDefaultCommand : option (ParsedArgs -> list Effect * option JsError);
  override_getHelp : option (Z -> string);
  override_getHelpIntro : option (Z -> string);
  override_getHelpSummaryEntry : option (CommandSpec.t -> Z -> string);
  override_getHelpTrailer : option (Z -> string)
}.

Definition noOverrides : Overrides :=
  mkOverrides None None None None None None None.

Record t := mk {
  commandSpecs : list CommandSpec.t;
  helpWrapWidth : Z;
  class : Overrides
}.

(** The constructor: [options.helpWrapWidth || DEFAULT_WRAP_WIDTH]. *)
Definition new (options : option Options) (sub : Overrides) : t :=
  let options := match options with
                 | Some o => o
                 | None => mkOptions None
                 end in
  let width := match opt_helpWrapWidth options with
               | Some w => if w =? 0 then DEFAULT_WRAP_WIDTH else w
               | None => DEFAULT_WRAP_WIDTH
               end in
  mk [] width sub.

(** The inner [forEach] of [addCommands]: is there a prior spec with the
    same normalized name? *)
Definition isDuplicate (specs : list CommandSpec.t) (spec : CommandSpec.t) : bool :=
  existsb (fun priorSpec =>
             String.eqb (CommandSpec._normName spec)
                        (CommandSpec._normName priorSpec)) specs.

(** The outer [forEach] of [addCommands] over what is left of the group:
    the registry as the loop leaves it, and the error thrown, if any. *)
Fixpoint addCommandsFrom (specs : list CommandSpec.t) (firstOfGroup : bool)
         (group : list CommandSpec.t) : list CommandSpec.t * option JsError :=
  match group with
  | [] => (specs, None)
  | spec :: rest =>
      if isDuplicate specs spec
      then (specs,
            Some (new_Error ("duplicate command name '" ++
                             CommandSpec._normName spec ++ "'")))
      else addCommandsFrom
             (specs ++ [CommandSpec.setFirstOfGroup firstOfGroup spec])%list
             false rest
  end.

(** [addCommands(group)]: the runner afterwards, and the error thrown. *)
Definition addCommands (self : t) (group : list CommandSpec.t) : t * option JsError :=
  let r := addCommandsFrom (commandSpecs self) true group in
  (mk (fst r) (helpWrapWidth self) (class self), snd r).

(** A program's set-up: one [addCommands] call after the other, each on
    the runner the previous one left, whether it threw or not. *)
Definition setup (self : t) (groups : list (list CommandSpec.t)) : t :=
  fold_left (fun r group => fst (addCommands r group)) groups self.

(** The [forEach] of [run] that looks the command up: the last spec with
    the name is the one that stays in [commandSpec]. *)
Definition lookup (specs : list CommandSpec.t) (commandName : string)
  : option CommandSpec.t :=
  fold_left (fun commandSpec spec =>
               if String.eqb (CommandSpec._normName spec) commandName
               then Some spec else commandSpec)
            specs None.

Definition getHelpIntro (self : t) (rightMargin : Z) : string :=
  match override_getHelpIntro (class self) with
  | Some f => f rightMargin
  | None => "This tool supports the following commands:" ++ Js.LF
  end.

Definition base_getHelpSummaryEntry `{Externals}
           (spec : CommandSpec.t) (rightMargin : Z) : string :=
  let syntax := Js.substr (CommandSpec._syntax spec)
                          (String.length (CommandSpec._name spec)) in
  let summary := wrapText ("  " ++ CommandSpec._summary spec) rightMargin true in
  toUpperCase (CommandSpec._name spec) ++ syntax ++ Js.LF ++ summary ++ Js.LF.

Definition getHelpSummaryEntry `{Externals} (self : t)
           (spec : CommandSpec.t) (rightMargin : Z) : string :=
  match override_getHelpSummaryEntry (class self) with
  | Some f => f spec rightMargin
  | None => base_getHelpSummaryEntry spec rightMargin
  end.

Definition getHelpTrailer (self : t) (rightMargin : Z) : string :=
  match override_getHelpTrailer (class self) with
  | Some f => f rightMargin
  | None => Js.LF
  end.

Definition base_getHelp `{Externals} (self : t) (rightMargin : Z) : string :=
  match commandSpecs self with
  | [] => "Help is not available."
  | _ =>
      let help := getHelpIntro self rightMargin in
      let help :=
        fold_left (fun help spec =>
                     let help := if CommandSpec._firstOfGroup spec
                                 then help ++ Js.LF else help in
                     help ++ getHelpSummaryEntry self spec rightMargin)
                  (commandSpecs self) help in
      help ++ getHelpTrailer self rightMargin
  end.

Definition getHelp `{Externals} (self : t) (rightMargin : Z) : string :=
  match override_getHelp (class self) with
  | Some f => f rightMargin
  | None => base_getHelp self rightMargin
  end.

Definition addDefaultOptions (self : t) (options : Opts) : Result Opts :=
  match override_addDefaultOptions (class self) with
  | Some f => f options
  | None => OK options
  end.

Definition parseDefaultArgs (self : t) (args : ParsedArgs) : Result ParsedArgs :=
  match override_parseDefaultArgs (class self) with
  | Some f => f args
  | None => OK args
  end.

Definition base_doDefaultCommand (self : t) (args : ParsedArgs)
  : list Effect * option JsError :=
  match commandSpecs self with
  | _ :: _ => ([next (Some (new_CommandUsageError "Missing command argument"))], None)
  | [] => ([next (Some (new_Error "Default command not implemented"))], None)
  end.

Definition doDefaultCommand (self : t) (args : ParsedArgs)
  : list Effect * option JsError :=
  match override_doDefaultCommand (class self) with
  | Some f => f args
  | None => base_doDefaultCommand self args
  end.

(** [command.getHelp(width)] for a command that [_init] bound to [self]
    and [spec]: the base method asks the runner for the summary entry. *)
Definition commandHelp `{Externals} (self : t) (spec : CommandSpec.t)
           (command : NamedCommand.t) (rightMargin : Z) : string :=
  match NamedCommand.getHelp command with
  | Some f => f rightMargin
  | None => getHelpSummaryEntry self spec rightMargin
  end.

(** [{ boolean: ['h'], alias: { h: 'help' } }] *)
Definition configOptions : Opts :=
  mkOpts (Some {[ "h" := One "help" ]}) (Some (BoolMany [Flag "h"])) None None ∅.

(** [args._ = args._.map(arg => String(arg))] *)
Definition stringArgs (args : ParsedArgs) : ParsedArgs :=
  mkArgs (options args) (map (fun arg => Js.Str (Js.String_ arg)) (args_ args)).

(** [run] from the help test on; [command] is [null] on the default path. *)
Definition runParsed `{Externals} (self : t)
           (command : option (CommandSpec.t * NamedCommand.t))
           (args : ParsedArgs) : Run :=
  if Js.truthy (help args) then
    let text := match command with
                | Some (spec, c) => commandHelp self spec c (helpWrapWidth self)
                | None => getHelp self (helpWrapWidth self)
                end in
    ([Do (stdout_write (wrapText text (helpWrapWidth self) true)); Do (next None)],
     OK tt)
  else
    let args := stringArgs args in
    let parsed := match command with
                  | Some (_, c) => NamedCommand.parseArgs c args
                  | None => parseDefaultArgs self args
                  end in
    let called := match command with
                  | Some (spec, _) => ParseArgs spec args parsed
                  | None => ParseDefaultArgs args parsed
                  end in
    match parsed with
    | Throw err =>
        if instanceof err CommandError
        then ([called; Do (next (Some err))], OK tt)
        else ([called], Throw err)
    | OK args =>
        match args_ args with
        | arg :: _ =>
            ([called; Do (next (Some (new_UnexpectedArgError (Js.String_ arg))))],
             OK tt)
        | [] =>
            match command with
            | Some (spec, c) =>
                after [called; DoCommand spec args]
                      (hookRun (NamedCommand.doCommand c args))
            | None =>
                after [called; DoDefaultCommand args]
                      (hookRun (doDefaultCommand self args))
            end
        end
    end.

(** The default, unnamed command: the [else] branch of [run]. *)
Definition runDefault `{Externals} (self : t) (argv : list string) : Run :=
  match addDefaultOptions self configOptions with
  | Throw err => ([AddDefaultOptions], Throw err)
  | OK config =>
      after [AddDefaultOptions; CallMinimist argv config]
            (runParsed self None (Minimist argv config))
  end.

(** A named command: the [then] branch of [run]. *)
Definition runNamed `{Externals} (self : t) (argv0 : string)
           (rest : list string) : Run :=
  let commandName := toLowerCase argv0 in
  match lookup (commandSpecs self) commandName with
  | None =>
      ([Do (next (Some (new_CommandUsageError
                          ("unrecognized command '" ++ commandName ++ "'"))))],
       OK tt)
  | Some commandSpec =>
      let command := CommandSpec.createCommand commandSpec in
      match NamedCommand.addOptions command configOptions with
      | Throw err => ([CreateCommand commandSpec; AddOptions commandSpec], Throw err)
      | OK config =>
          after [CreateCommand commandSpec; AddOptions commandSpec;
                 CallMinimist rest config]
                (runParsed self (Some (commandSpec, command)) (Minimist rest config))
      end
  end.

(** [run(argv, next)] *)
Definition run `{Externals} (self : t) (argv : list string) : Run :=
  match argv with
  | argv0 :: rest =>
      if negb (Js.firstIsDash argv0)
      then runNamed self argv0 rest
      else runDefault self argv
  | [] => runDefault self argv
  end.

(** [run] and what it calls, for a callback that may throw.  [run] above
    is the case of a callback that returns.  The hooks of a command and the
    overriding hooks of the runner are given, as above, by what they do in
    the run at hand; the runner's own [doDefaultCommand] ends by its call of
    the callback.  The calls of [run] itself come before any call by a hook,
    so they are the calls number 0 and 1. *)
Definition base_doDefaultCommandWith (callback : Callback) (self : t)
           (args : ParsedArgs) : list Effect * option JsError :=
  match commandSpecs self with
  | _ :: _ =>
      let err := new_CommandUsageError "Missing command argument" in
      ([next (Some err)], callback 0%nat (Some err))
  | [] =>
      let err := new_Error "Default command not implemented" in
      ([next (Some err)], callback 0%nat (Some err))
  end.

Definition doDefaultCommandWith (callback : Callback) (self : t) (args : ParsedArgs)
  : list Effect * option JsError :=
  match override_doDefaultCommand (class self) with
  | Some f => f args
  | None => base_doDefaultCommandWith callback self args
  end.

(** From the help test on.  The call with the [UnexpectedArgError] is
    inside the [try] block: an exception of the callback there is caught,
    and a [CommandError] among them is handed to the callback in a second
    call; the calls in the [catch] block and outside the [try] are not
    guarded. *)
Definition runParsedWith `{Externals} (callback : Callback) (self : t)
           (command : option (CommandSpec.t * NamedCommand.t))
           (args : ParsedArgs) : Run :=
  if Js.truthy (help args) then
    let text := match command with
                | Some (spec, c) => commandHelp self spec c (helpWrapWidth self)
                | None => getHelp self (helpWrapWidth self)
                end in
    ([Do (stdout_write (wrapText text (helpWrapWidth self) true)); Do (next None)],
     thrown (callback 0%nat None))
  else
    let args := stringArgs args in
    let parsed := match command with
                  | Some (_, c) => NamedCommand.parseArgs c args
                  | None => parseDefaultArgs self args
                  end in
    let called := match command with
                  | Some (spec, _) => ParseArgs spec args parsed
                  | None => ParseDefaultArgs args parsed
                  end in
    match parsed with
    | Throw err =>
        if instanceof err CommandError
        then ([called; Do (next (Some err))], thrown (callback 0%nat (Some err)))
        else ([called], Throw err)
    | OK args =>
        match args_ args with
        | arg :: _ =>
            let unexpected := new_UnexpectedArgError (Js.String_ arg) in
            match callback 0%nat (Some unexpected) with
            | None => ([called; Do (next (Some unexpected))], OK tt)
            | Some err =>
                if instanceof err CommandError
                then ([called; Do (next (Some unexpected)); Do (next (Some err))],
                      thrown (callback 1%nat (Some err)))
                else ([called; Do (next (Some unexpected))], Throw err)
            end
        | [] =>
            match command with
            | Some (spec, c) =>
                after [called; DoCommand spec args]
                      (hookRun (NamedCommand.doCommand c args))
            | None =>
                after [called; DoDefaultCommand args]
                      (hookRun (doDefaultCommandWith callback self args))
            end
        end
    end.

Definition runDefaultWith `{Externals} (callback : Callback) (self : t)
           (argv : list string) : Run :=
  match addDefaultOptions self configOptions with
  | Throw err => ([AddDefaultOptions], Throw err)
  | OK config =>
      after [AddDefaultOptions; CallMinimist argv config]
            (runParsedWith callback self None (Minimist argv config))
  end.

Definition runNamedWith `{Externals} (callback : Callback) (self : t)
           (argv0 : string) (rest : list string) : Run :=
  let commandName := toLowerCase argv0 in
  match lookup (commandSpecs self) commandName with
  | None =>
      let err := new_CommandUsageError
                   ("unrecognized command '" ++ commandName ++ "'") in
      ([Do (next (Some err))], thrown (callback 0%nat (Some err)))
  | Some commandSpec =>
      let command := CommandSpec.createCommand commandSpec in
      match NamedCommand.addOptions command configOptions with
      | Throw err => ([CreateCommand commandSpec; AddOptions commandSpec], Throw err)
      | OK config =>
          after [CreateCommand commandSpec; AddOptions commandSpec;
                 CallMinimist rest config]
                (runParsedWith callback self (Some (commandSpec, command))
                               (Minimist rest config))
      end
  end.

Definition runWith `{Externals} (callback : Callback) (self : t)
           (argv : list string) : Run :=
  match argv with
  | argv0 :: rest =>
      if negb (Js.firstIsDash argv0)
      then runNamedWith callback self argv0 rest
      else runDefaultWith callback self argv
  | [] => runDefaultWith callback self argv
  end.

End CommandRunner.

(** ** The demo's completion callback (demo.ts) *)

Module Demo.

(** What the callback does with the error it is given. *)
Inductive Handled :=
| Silent
| Stderr (text : string)
| Rethrown (err : JsError).

Definition callback (err : option JsError) : Handled :=
  match err with
  | None => Silent
  | Some err =>
      if instanceof err CommandUsageError
      then Stderr (message err ++ " (-h for help)" ++ Js.LF)
      else if instanceof err CommandError
      then Stderr (message err ++ Js.LF)
      else Rethrown err
  end.

(** The demo's callback as the callback of a run: it throws what it
    throws again, and returns otherwise, at every call. *)
Definition next : Callback :=
  fun _ err =>
    match callback err with
    | Rethrown e => Some e
    | _ => None
    end.

End Demo.

(** ** Reading a run and a configuration *)

(** The callback was called with [err]. *)
Definition calledBack (r : Run) (err : option JsError) : Prop :=
  In (Do (next err)) (fst r).

Definition isCallback (ev : Event) : Prop :=
  match ev with
  | Do (next _) => True
  | _ => False
  end.

(** An effect: a write, or a call of the callback. *)
Definition isEffect (ev : Event) : Prop :=
  match ev with
  | Do _ => True
  | _ => False
  end.

(** A validation hook: [parseArgs] or [parseDefaultArgs]. *)
Definition isValidation (ev : Event) : Prop :=
  match ev with
  | ParseArgs _ _ _ | ParseDefaultArgs _ _ => True
  | _ => False
  end.

(** An execution hook: [doCommand] or [doDefaultCommand]. *)
Definition isExecution (ev : Event) : Prop :=
  match ev with
  | DoCommand _ _ | DoDefaultCommand _ => True
  | _ => False
  end.

(** A handler is instantiated. *)
Definition isInstantiation (ev : Event) : Prop :=
  match ev with
  | CreateCommand _ => True
  | _ => False
  end.

(** The validation hook of the run threw [err]. *)
Definition validationThrew (r : Run) (err : JsError) : Prop :=
  (exists spec args, In (ParseArgs spec args (Throw err)) (fst r)) \/
  (exists args, In (ParseDefaultArgs args (Throw err)) (fst r)).

(** The policy of [run] for what a validation hook throws, with [kind] the
    class of the errors that go to the callback: such an error is the last
    thing the run does, handed to the callback as it is; any other error
    escapes, and the callback is not called. *)
Definition validationPolicy (kind : ErrorClass) (r : Run) : Prop :=
  forall err, validationThrew r err ->
    (instanceof err kind = true ->
       (exists evs, fst r = (evs ++ [Do (next (Some err))])%list /\
                    Forall (fun ev => ~ isCallback ev) evs) /\
       snd r = OK tt) /\
    (instanceof err kind = false ->
       snd r = Throw err /\ Forall (fun ev => ~ isCallback ev) (fst r)).

(** The settings of a configuration, category by category. *)
Definition aliasMap (o : Opts) : gmap string Names :=
  match alias o with
  | Some m => m
  | None => ∅
  end.

Definition defaultMap (o : Opts) : gmap string Js.Value :=
  match default o with
  | Some m => m
  | None => ∅
  end.

Definition booleanList (o : Opts) : list BoolItem :=
  match boolean o with
  | Some (BoolMany l) => l
  | Some (BoolOne s) => [Flag s]
  | Some (BoolAll b) => [AllFlags b]
  | None => []
  end.

Definition stringList (o : Opts) : list string :=
  match string_ o with
  | Some (Many l) => l
  | Some (One s) => [s]
  | None => []
  end.

(** Every setting of [o] is a setting of [r]. *)
Definition settingsKept (o r : Opts) : Prop :=
  (forall k v, aliasMap o !! k = Some v -> aliasMap r !! k = Some v) /\
  (forall x, In x (booleanList o) -> In x (booleanList r)) /\
  (forall x, In x (stringList o) -> In x (stringList r)) /\
  (forall k v, defaultMap o !! k = Some v -> defaultMap r !! k = Some v).

(** A merge is additive: it succeeds, and the settings of the destination
    and of the source are all settings of the result. *)
Definition additive (toOptions fromOptions : Opts) : Prop :=
  exists r, CommandUtil.addOptions toOptions fromOptions = OK r /\
            settingsKept toOptions r /\ settingsKept fromOptions r.

(** A destination as [run] hands it to the contributors: the alias object
    and the boolean array are there, and [string], if there, is an array. *)
Definition initialised (o : Opts) : Prop :=
  (exists m, alias o = Some m) /\
  (exists l, boolean o = Some (BoolMany l)) /\
  (string_ o = None \/ exists l, string_ o = Some (Many l)).

(** The help page as the sum of its parts: the lines of one spec, of one
    group, and the page for the groups in the order they were added. *)
Definition entryText `{Externals} (rightMargin : Z) (spec : CommandSpec.t) : string :=
  toUpperCase (CommandSpec._name spec) ++
  Js.substr (CommandSpec._syntax spec) (String.length (CommandSpec._name spec)) ++
  Js.LF ++ wrapText ("  " ++ CommandSpec._summary spec) rightMargin true ++ Js.LF.

Fixpoint concatText (l : list string) : string :=
  match l with
  | [] => EmptyString
  | s :: r => s ++ concatText r
  end.

Definition groupText `{Externals} (rightMargin : Z) (group : list CommandSpec.t) : string :=
  match group with
  | [] => EmptyString
  | _ => Js.LF ++ concatText (map (entryText rightMargin) group)
  end.

Definition helpPage `{Externals} (self : CommandRunner.t) (rightMargin : Z)
           (groups : list (list CommandSpec.t)) : string :=
  CommandRunner.getHelpIntro self rightMargin ++
  concatText (map (groupText rightMargin) groups) ++
  CommandRunner.getHelpTrailer self rightMargin.

(** The lines of one spec with the blank line its flag asks for, and the
    page for a registry as it stands. *)
Definition flaggedText `{Externals} (rightMargin : Z) (spec : CommandSpec.t) : string :=
  (if CommandSpec._firstOfGroup spec then Js.LF else EmptyString) ++
  entryText rightMargin spec.

Definition helpByFlags `{Externals} (self : CommandRunner.t) (rightMargin : Z) : string :=
  CommandRunner.getHelpIntro self rightMargin ++
  concatText (map (flaggedText rightMargin) (CommandRunner.commandSpecs self)) ++
  CommandRunner.getHelpTrailer self rightMargin.

(** The normalized names of a list of specs. *)
Definition normNames (specs : list CommandSpec.t) : list string :=
  map CommandSpec._normName specs.

(** A group as a successful [addCommands] stores it: the first spec
    flagged, the others not. *)
Fixpoint marked (firstOfGroup : bool) (group : list CommandSpec.t)
  : list CommandSpec.t :=
  match group with
  | [] => []
  | spec :: rest => CommandSpec.setFirstOfGroup firstOfGroup spec :: marked false rest
  end.

(** What the constructor establishes of a spec's names. *)
Definition wellFormed `{Externals} (spec : CommandSpec.t) : Prop :=
  CommandSpec._normName spec = toLowerCase (CommandSpec._name spec) /\
  Js.firstIsDash (CommandSpec._name spec) = false.

(** Letter-case variants: two texts that lower-casing maps to the same
    text. *)
Definition letterCaseVariant `{Externals} (s t : string) : Prop :=
  toLowerCase s = toLowerCase t.

(** What the code relies on of the engine's lower-casing when it tests the
    first character of a name: it neither makes nor removes a leading
    dash. *)
Definition keepsDash `{Externals} : Prop :=
  forall s, Js.firstIsDash (toLowerCase s) = Js.firstIsDash s.

(** [s.includes(part)] *)
Fixpoint includes (part s : string) : bool :=
  String.prefix part s ||
  match s with
  | EmptyString => false
  | String _ r => includes part r
  end.

(** The callback is given a usage error whose message contains [name]. *)
Definition reportsCommand (r : Run) (name : string) : Prop :=
  exists err, calledBack r (Some err) /\
              instanceof err CommandUsageError = true /\
              includes name (message err) = true.


(** The callback returns from each of its calls. *)
Definition returns (callback : Callback) : Prop :=
  forall k err, callback k err = None.

(** A spec that its constructor returned. *)
Definition constructed `{Externals} (spec : CommandSpec.t) : Prop :=
  exists syntax summary factory, CommandSpec.new syntax summary factory = OK spec.

(** [n] calls of [nextNonOptionArg], one after the other: what each
    returned, and [args] as the last one leaves it. *)
Fixpoint nextNonOptionArgs (n : nat) (args : ParsedArgs)
  : list (option Js.Value) * ParsedArgs :=
  match n with
  | O => ([], args)
  | S k =>
      let first := CommandUtil.nextNonOptionArg args in
      let others := nextNonOptionArgs k (snd first) in
      (fst first :: fst others, snd others)
  end.

(** The test that opens [run]: does [argv] name a command? *)
Definition namesCommand (argv : list string) : bool :=
  match argv with
  | argv0 :: _ => negb (Js.firstIsDash argv0)
  | [] => false
  end.

(** A positional that is a string. *)
Definition isString (v : Js.Value) : Prop :=
  match v with
  | Js.Str _ => True
  | _ => False
  end.

(** Strings made of spaces only, and strings with a space in them. *)
Fixpoint allSpaces (s : string) : bool :=
  match s with
  | EmptyString => true
  | String c r => Ascii.eqb c " "%char && allSpaces r
  end.

Fixpoint hasSpace (s : string) : bool :=
  match s with
  | EmptyString => false
  | String c r => Ascii.eqb c " "%char || hasSpace r
  end.

(** The lines of one spec on the help page of a runner that may override
    the summary entry, with the blank line its flag asks for. *)
Definition pageEntry `{Externals} (self : CommandRunner.t) (rightMargin : Z)
           (spec : CommandSpec.t) : string :=
  (if CommandSpec._firstOfGroup spec then Js.LF else EmptyString) ++
  CommandRunner.getHelpSummaryEntry self spec rightMargin.

(** Two configurations with the same settings, the names taken as sets. *)
Definition sameSettings (r r' : Opts) : Prop :=
  aliasMap r = aliasMap r' /\ defaultMap r = defaultMap r' /\
  (forall x, In x (booleanList r) <-> In x (booleanList r')) /\
  (forall x, In x (stringList r) <-> In x (stringList r')).

(** ** Sample commands and collaborators, for the examples *)

Module Sample.

(** A small stand-in for the option parser: it knows [-h] and [--help]
    and takes every other argument as a positional. *)
Fixpoint parseFrom (argv : list string) (args : ParsedArgs) : ParsedArgs :=
  match argv with
  | [] => args
  | a :: rest =>
      if String.eqb a "-h" || String.eqb a "--help"
      then parseFrom rest
             (mkArgs (<["help" := Js.Bool true]> (<["h" := Js.Bool true]> (options args)))
                     (args_ args))
      else parseFrom rest (mkArgs (options args) (args_ args ++ [Js.Str a]))
  end.

(** A stand-in for an option parser that types its positionals: an
    argument made of digits becomes a number. *)
Fixpoint allDigits (s : string) : bool :=
  match s with
  | EmptyString => true
  | String c r => ((48 <=? N_of_ascii c) && (N_of_ascii c <=? 57))%N && allDigits r
  end.

Definition typing : Externals :=
  {| Minimist := fun argv _ =>
       mkArgs ∅ (map (fun a => if allDigits a then Js.Num a else Js.Str a) argv);
     wrapText := fun text _ _ => text;
     toLowerCase := Js.toLowerCase;
     toUpperCase := Js.toUpperCase |}.

Definition externals : Externals :=
  {| Minimist := fun argv _ => parseFrom argv (mkArgs ∅ []);
     wrapText := fun text _ _ => text;
     toLowerCase := Js.toLowerCase;
     toUpperCase := Js.toUpperCase |}.

(** A command as the demo's: no options, no arguments, completes. *)
Definition hello : NamedCommand.t :=
  NamedCommand.mk NamedCommand.base_addOptions NamedCommand.base_parseArgs
                  (fun _ => ([next None], None)) None.

Definition helloSpec : CommandSpec.t :=
  CommandSpec.mk "HELLO" "hello" "HELLO" "Says hello back to you" false hello.

(** A command whose [parseArgs] throws a [CommandError] that is not a
    usage error. *)
Definition refuse : NamedCommand.t :=
  NamedCommand.mk NamedCommand.base_addOptions
                  (fun _ => Throw (NamedCommand.error "nothing to deploy"))
                  (fun _ => ([next None], None)) None.

Definition refuseSpec : CommandSpec.t :=
  CommandSpec.mk "deploy" "deploy" "deploy <target>" "Deploys the target" false refuse.

Definition runner : CommandRunner.t :=
  fst (CommandRunner.addCommands (CommandRunner.new None CommandRunner.noOverrides)
                                 [helloSpec; refuseSpec]).

Definition empty : CommandRunner.t :=
  CommandRunner.new None CommandRunner.noOverrides.

(** A contributor that declares [-h] as an alias of its own. *)
Definition haltOptions : Opts :=
  mkOpts (Some {[ "h" := One "halt" ]}) None None None ∅.

(** A contributor that declares a boolean flag and a string option. *)
Definition verboseOptions : Opts :=
  mkOpts (Some {[ "v" := One "verbose" ]}) (Some (BoolOne "v")) None
         (Some (One "out")) ∅.

(** A command that takes up to two positional arguments, one call of
    [nextNonOptionArg] each. *)
Definition copy : NamedCommand.t :=
  NamedCommand.mk NamedCommand.base_addOptions
                  (fun args => OK (snd (nextNonOptionArgs 2 args)))
                  (fun _ => ([next None], None)) None.

Definition copySpec : CommandSpec.t :=
  CommandSpec.mk "copy" "copy" "copy <from> <to>" "Copies a file" false copy.

Definition copier : CommandRunner.t :=
  fst (CommandRunner.addCommands (CommandRunner.new None CommandRunner.noOverrides)
                                 [copySpec]).

(** A callback that, given an [UnexpectedArgError] at its first call,
    throws a [CommandError] of its own, and returns otherwise. *)
Definition grumpy : Callback :=
  fun k err =>
    match k, err with
    | O, Some e =>
        if instanceof e UnexpectedArgError
        then Some (NamedCommand.error "no more arguments, please")
        else None
    | _, _ => None
    end.

(** A command whose [addOptions] throws a usage error. *)
Definition faulty : NamedCommand.t :=
  NamedCommand.mk (fun _ => Throw (NamedCommand.usageError "bad option table"))
                  NamedCommand.base_parseArgs
                  (fun _ => ([next None], None)) None.

Definition faultySpec : CommandSpec.t :=
  CommandSpec.mk "sync" "sync" "sync" "Synchronizes" false faulty.

Definition faultyRunner : CommandRunner.t :=
  fst (CommandRunner.addCommands (CommandRunner.new None CommandRunner.noOverrides)
                                 [faultySpec]).

End Sample.

(** * Properties *)

(** ** Merging option configurations *)

Lemma Object_assign_lookup {V} (target source : gmap string V) k :
  Object_assign target source !! k =
  match source !! k with
  | Some v => Some v
  | None => target !! k
  end.
Proof.
  unfold Object_assign. destruct (source !! k) as [v|] eqn:Hs.
  - by apply lookup_union_Some_l.
  - by rewrite lookup_union_r.
Qed.

Lemma Object_assign_empty {V} (target : gmap string V) :
  Object_assign target ∅ = target.
Proof. unfold Object_assign. apply (left_id_L ∅ (∪)). Qed.

Lemma Object_assign_twice {V} (target source : gmap string V) :
  Object_assign (Object_assign target source) source = Object_assign target source.
Proof.
  apply map_eq. intros k. rewrite !Object_assign_lookup.
  by destruct (source !! k).
Qed.

(** What a successful merge leaves in each category. *)
Lemma addOptions_initialised toOptions fromOptions :
  initialised toOptions ->
  exists r, CommandUtil.addOptions toOptions fromOptions = OK r /\
    initialised r /\
    aliasMap r = Object_assign (aliasMap toOptions) (aliasMap fromOptions) /\
    defaultMap r = Object_assign (defaultMap toOptions) (defaultMap fromOptions) /\
    booleanList r = (booleanList toOptions ++ booleanList fromOptions)%list /\
    stringList r = (stringList toOptions ++ stringList fromOptions)%list /\
    others r = others toOptions.
Proof.
  destruct toOptions as [ta tb td ts tother], fromOptions as [fa fb fd fs fother].
  intros ([m Hm] & [l Hl] & Hs). simpl in Hm, Hl, Hs. subst ta tb.
  unfold CommandUtil.addOptions, CommandUtil.addAlias, CommandUtil.addBoolean,
    CommandUtil.addDefault, CommandUtil.addString, initialised, aliasMap,
    defaultMap, booleanList, stringList.
  destruct Hs as [-> | [sl ->]];
    destruct fa as [fa|]; destruct fb as [[b|s|bl]|]; destruct fd as [fd|];
    destruct td as [td|]; destruct fs as [[s'|sl']|]; simpl;
    eexists; (split; [reflexivity|]); simpl;
    rewrite ?Object_assign_empty, ?app_nil_r;
    repeat split; eauto.
Qed.

Lemma configOptions_initialised : initialised CommandRunner.configOptions.
Proof. unfold initialised; simpl; repeat split; eauto. Qed.

(** C5: the code breaks the claim, and the doc comment of [addOptions]
    (merged so that none are lost from either set).  Merging a source that
    declares the alias [h] into the base configuration of [run] replaces the
    destination's [h -> help] by the source's [h -> halt]: a setting of the
    destination is lost, where the boolean and string cases of the same
    function keep every entry of the destination. *)
Theorem addOptions_loses_alias :
  aliasMap CommandRunner.configOptions !! "h" = Some (One "help") /\
  (exists r,
     CommandUtil.addOptions CommandRunner.configOptions Sample.haltOptions = OK r /\
     aliasMap r !! "h" = Some (One "halt") /\
     booleanList r = booleanList CommandRunner.configOptions) /\
  ~ additive CommandRunner.configOptions Sample.haltOptions.
Proof.
  split; [reflexivity|]. split.
  - eexists. split; [reflexivity|]. split; reflexivity.
  - intros (r & Hr & (Halias & _) & _).
    vm_compute in Hr. injection Hr as <-.
    specialize (Halias "h" (One "help") eq_refl).
    vm_compute in Halias. discriminate.
Qed.

(** X23: merging into a destination that has its alias object and boolean
    array and whose [string] is absent or an array (as every configuration
    [run] hands out is, when the contributors merge with [addOptions])
    succeeds and leaves such a destination; every setting of the source is
    in the result; an alias or default of the destination keeps its value
    unless the source declares the same key, whose value then replaces it;
    the boolean and the string names of the result are those of the
    destination or of the source; and merging the same source once more
    changes no setting. *)
Theorem addOptions_merge toOptions fromOptions :
  initialised toOptions ->
  exists r, CommandUtil.addOptions toOptions fromOptions = OK r /\
    initialised r /\
    settingsKept fromOptions r /\
    (forall k, aliasMap r !! k =
               match aliasMap fromOptions !! k with
               | Some v => Some v
               | None => aliasMap toOptions !! k
               end) /\
    (forall k, defaultMap r !! k =
               match defaultMap fromOptions !! k with
               | Some v => Some v
               | None => defaultMap toOptions !! k
               end) /\
    (forall x, In x (booleanList r) <->
               In x (booleanList toOptions) \/ In x (booleanList fromOptions)) /\
    (forall x, In x (stringList r) <->
               In x (stringList toOptions) \/ In x (stringList fromOptions)) /\
    exists r', CommandUtil.addOptions r fromOptions = OK r' /\
      aliasMap r' = aliasMap r /\ defaultMap r' = defaultMap r /\
      (forall x, In x (booleanList r') <-> In x (booleanList r)) /\
      (forall x, In x (stringList r') <-> In x (stringList r)).
Proof.
  intros Hinit.
  destruct (addOptions_initialised toOptions fromOptions Hinit)
    as (r & Hr & Hri & Ha & Hd & Hb & Hs & _).
  exists r. split; [exact Hr|]. split; [exact Hri|].
  split.
  { repeat split.
    - intros k v Hk. rewrite Ha, Object_assign_lookup. by rewrite Hk.
    - intros x Hx. rewrite Hb. apply in_or_app. by right.
    - intros x Hx. rewrite Hs. apply in_or_app. by right.
    - intros k v Hk. rewrite Hd, Object_assign_lookup. by rewrite Hk. }
  split; [intros k; by rewrite Ha, Object_assign_lookup|].
  split; [intros k; by rewrite Hd, Object_assign_lookup|].
  split; [intros x; rewrite Hb; apply in_app_iff|].
  split; [intros x; rewrite Hs; apply in_app_iff|].
  destruct (addOptions_initialised r fromOptions Hri)
    as (r' & Hr' & _ & Ha' & Hd' & Hb' & Hs' & _).
  exists r'. split; [exact Hr'|].
  rewrite Ha', Hd', Hb', Hs', Ha, Hd, Hb, Hs, !Object_assign_twice.
  split; [reflexivity|]. split; [reflexivity|].
  split; intros x; rewrite !in_app_iff; tauto.
Qed.

Lemma addOptions_merge_witness :
  initialised CommandRunner.configOptions /\
  exists r, CommandUtil.addOptions CommandRunner.configOptions Sample.verboseOptions = OK r /\
            In (Flag "v") (booleanList r) /\ In (Flag "h") (booleanList r).
Proof.
  split; [exact configOptions_initialised|].
  destruct (addOptions_merge CommandRunner.configOptions Sample.verboseOptions
              configOptions_initialised) as (r & Hr & _ & _ & _ & _ & Hb & _).
  exists r. split; [exact Hr|].
  split; apply Hb; [right|left]; simpl; auto.
Defined.

(** ** The command registry *)

Lemma isDuplicate_true specs spec :
  CommandRunner.isDuplicate specs spec = true <->
  In (CommandSpec._normName spec) (normNames specs).
Proof.
  unfold CommandRunner.isDuplicate, normNames.
  rewrite existsb_exists, in_map_iff. split.
  - intros (prior & Hin & Heq). apply String.eqb_eq in Heq. eauto.
  - intros (prior & Heq & Hin). exists prior. split; [exact Hin|].
    apply String.eqb_eq. congruence.
Qed.

Lemma isDuplicate_false specs spec :
  CommandRunner.isDuplicate specs spec = false <->
  ~ In (CommandSpec._normName spec) (normNames specs).
Proof.
  rewrite <- isDuplicate_true.
  destruct (CommandRunner.isDuplicate specs spec); split; congruence.
Qed.

Lemma normNames_snoc specs b spec :
  normNames (specs ++ [CommandSpec.setFirstOfGroup b spec]) =
  (normNames specs ++ [CommandSpec._normName spec])%list.
Proof. unfold normNames. by rewrite map_app. Qed.

Lemma NoDup_snoc_name (names : list string) name :
  NoDup names -> ~ In name names -> NoDup (names ++ [name]).
Proof.
  intros Hnd Hnot. apply NoDup_app. split; [exact Hnd|].
  split; [|apply NoDup_singleton].
  intros x Hx Hx'. apply list_elem_of_singleton in Hx'. subst x.
  apply Hnot. by apply list_elem_of_In.
Qed.

(** The registry's invariant: one loop of [addCommands] keeps the
    normalized names distinct, whether it throws or not. *)
Lemma addCommandsFrom_NoDup group : forall specs b,
  NoDup (normNames specs) ->
  NoDup (normNames (fst (CommandRunner.addCommandsFrom specs b group))).
Proof.
  induction group as [|spec rest IH]; intros specs b Hnd; simpl; [exact Hnd|].
  destruct (CommandRunner.isDuplicate specs spec) eqn:Hdup; simpl; [exact Hnd|].
  apply IH. rewrite normNames_snoc.
  apply NoDup_snoc_name; [exact Hnd|]. by apply isDuplicate_false.
Qed.

Lemma setup_NoDup groups : forall self,
  NoDup (normNames (CommandRunner.commandSpecs self)) ->
  NoDup (normNames (CommandRunner.commandSpecs (CommandRunner.setup self groups))).
Proof.
  unfold CommandRunner.setup.
  induction groups as [|group rest IH]; intros self Hnd; simpl; [exact Hnd|].
  apply IH. simpl. by apply addCommandsFrom_NoDup.
Qed.

(** A name that is already taken, by the registry or earlier in the group,
    makes the loop throw, naming the first spec of the group that is taken. *)
Lemma addCommandsFrom_throws pre : forall specs b spec post,
  In (CommandSpec._normName spec) (normNames (specs ++ pre)) ->
  exists dup, In dup (pre ++ [spec]) /\
    snd (CommandRunner.addCommandsFrom specs b (pre ++ spec :: post)) =
    Some (new_Error ("duplicate command name '" ++ CommandSpec._normName dup ++ "'")).
Proof.
  induction pre as [|p pre IH]; intros specs b spec post Hin; simpl.
  - rewrite app_nil_r in Hin. apply isDuplicate_true in Hin. rewrite Hin.
    exists spec. simpl. auto.
  - destruct (CommandRunner.isDuplicate specs p) eqn:Hdup.
    + exists p. simpl. auto.
    + destruct (IH (specs ++ [CommandSpec.setFirstOfGroup b p])%list false spec post)
        as (dup & Hdupin & Hthrow).
      * unfold normNames in *. rewrite <- app_assoc. rewrite !map_app in *.
        simpl in *. exact Hin.
      * exists dup. split; [by right|exact Hthrow].
Qed.

(** A group whose names are new and distinct is stored whole, the first
    spec flagged. *)
Lemma addCommandsFrom_fresh group : forall specs b,
  NoDup (normNames (specs ++ group)) ->
  CommandRunner.addCommandsFrom specs b group = ((specs ++ marked b group)%list, None).
Proof.
  induction group as [|spec rest IH]; intros specs b Hnd; simpl.
  - by rewrite app_nil_r.
  - assert (Hfresh : CommandRunner.isDuplicate specs spec = false).
    { apply isDuplicate_false. intros Hin.
      unfold normNames in Hnd. rewrite map_app in Hnd. simpl in Hnd.
      apply NoDup_app in Hnd as (_ & Hdisj & _).
      apply (Hdisj (CommandSpec._normName spec)).
      - by apply list_elem_of_In.
      - apply list_elem_of_here. }
    rewrite Hfresh, IH.
    + by rewrite <- app_assoc.
    + unfold normNames in *. rewrite <- app_assoc. rewrite !map_app in *.
      simpl in *. exact Hnd.
Qed.

Lemma normNames_marked group : forall b,
  normNames (marked b group) = normNames group.
Proof.
  induction group as [|spec rest IH]; intros b; simpl; [reflexivity|].
  by rewrite IH.
Qed.

Lemma setup_fresh groups : forall self,
  NoDup (normNames (CommandRunner.commandSpecs self ++ concat groups)) ->
  CommandRunner.commandSpecs (CommandRunner.setup self groups) =
  (CommandRunner.commandSpecs self ++ concat (map (marked true) groups))%list.
Proof.
  unfold CommandRunner.setup.
  induction groups as [|group rest IH]; intros self Hnd; simpl.
  - by rewrite app_nil_r.
  - simpl in Hnd. rewrite app_assoc in Hnd.
    assert (Hg : NoDup (normNames (CommandRunner.commandSpecs self ++ group))).
    { unfold normNames in *. rewrite map_app in Hnd.
      by apply NoDup_app in Hnd as (Hnd & _). }
    rewrite IH; simpl; rewrite (addCommandsFrom_fresh _ _ _ Hg); simpl.
    + by rewrite <- app_assoc.
    + pose proof (normNames_marked group true) as Hm.
      unfold normNames in *. rewrite !map_app in *. by rewrite Hm.
Qed.

(** C6: after any sequence of [addCommands] calls on a new runner the
    normalized names of the registry are pairwise distinct; and adding a
    group with a spec whose normalized name is taken, by a registered spec
    (of whatever earlier group) or by a spec before it in the group, throws
    a plain [Error] out of [addCommands] itself, which is no [CommandError]
    and which no callback receives: [addCommands] has none and performs no
    effect. *)
Theorem addCommands_unique_names options sub (groups : list (list CommandSpec.t)) :
  NoDup (normNames (CommandRunner.commandSpecs
                      (CommandRunner.setup (CommandRunner.new options sub) groups))) /\
  forall pre spec post,
    In (CommandSpec._normName spec)
       (normNames (CommandRunner.commandSpecs
                     (CommandRunner.setup (CommandRunner.new options sub) groups)
                   ++ pre)) ->
    exists dup err,
      In dup (pre ++ [spec]) /\
      err = new_Error ("duplicate command name '" ++ CommandSpec._normName dup ++ "'") /\
      snd (CommandRunner.addCommands
             (CommandRunner.setup (CommandRunner.new options sub) groups)
             (pre ++ spec :: post)) = Some err /\
      instanceof err CommandError = false.
Proof.
  split.
  - apply setup_NoDup. simpl. constructor.
  - intros pre spec post Hin.
    destruct (addCommandsFrom_throws pre _ true spec post Hin) as (dup & Hdup & Hthrow).
    exists dup, (new_Error ("duplicate command name '" ++ CommandSpec._normName dup ++ "'")).
    repeat split; auto.
Qed.

Lemma addCommands_unique_names_witness :
  In (CommandSpec._normName Sample.helloSpec)
     (normNames (CommandRunner.commandSpecs Sample.runner ++ [Sample.refuseSpec])) /\
  exists err,
    snd (CommandRunner.addCommands Sample.runner
           [Sample.refuseSpec; Sample.helloSpec]) = Some err /\
    instanceof err CommandError = false.
Proof.
  assert (Hin : In (CommandSpec._normName Sample.helloSpec)
                   (normNames (CommandRunner.commandSpecs Sample.runner
                               ++ [Sample.refuseSpec]))) by (simpl; auto).
  split; [exact Hin|].
  destruct (addCommands_unique_names None CommandRunner.noOverrides
              [[Sample.helloSpec; Sample.refuseSpec]]) as [_ Hthrows].
  destruct (Hthrows [Sample.refuseSpec] Sample.helloSpec [] Hin)
    as (dup & err & _ & _ & Herr & Hcls).
  exists err. split; [exact Herr|exact Hcls].
Defined.

(** ** Looking a command up *)

Lemma lowerChar_idem c : Js.lowerChar (Js.lowerChar c) = Js.lowerChar c.
Proof. destruct c as [[] [] [] [] [] [] [] []]; reflexivity. Qed.

Lemma lowerChar_dash c :
  Ascii.eqb (Js.lowerChar c) "-"%char = Ascii.eqb c "-"%char.
Proof. destruct c as [[] [] [] [] [] [] [] []]; reflexivity. Qed.

Lemma sameLetter_lower a b : Js.sameLetter a b -> Js.lowerChar a = Js.lowerChar b.
Proof.
  intros [-> | [[_ ->] | [_ ->]]]; [reflexivity| |]; by rewrite lowerChar_idem.
Qed.

Lemma caseVariant_toLowerCase s t :
  Js.caseVariant s t -> Js.toLowerCase s = Js.toLowerCase t.
Proof.
  induction 1 as [|a b s t Hab _ IH]; simpl; [reflexivity|].
  by rewrite IH, (sameLetter_lower a b Hab).
Qed.

Lemma lookup_step_absent specs : forall acc name,
  ~ In name (normNames specs) ->
  fold_left (fun commandSpec spec =>
               if String.eqb (CommandSpec._normName spec) name
               then Some spec else commandSpec) specs acc = acc.
Proof.
  induction specs as [|s rest IH]; intros acc name Hnot; simpl; [reflexivity|].
  simpl in Hnot. destruct (String.eqb_spec (CommandSpec._normName s) name) as [Heq|_].
  - exfalso. apply Hnot. by left.
  - apply IH. intros Hin. apply Hnot. by right.
Qed.

Lemma lookup_absent specs name :
  ~ In name (normNames specs) -> CommandRunner.lookup specs name = None.
Proof. apply lookup_step_absent. Qed.

Lemma lookup_step_present specs : forall acc spec,
  NoDup (normNames specs) -> In spec specs ->
  fold_left (fun commandSpec s =>
               if String.eqb (CommandSpec._normName s) (CommandSpec._normName spec)
               then Some s else commandSpec) specs acc = Some spec.
Proof.
  induction specs as [|s rest IH]; intros acc spec Hnd Hin; simpl; [destruct Hin|].
  simpl in Hnd. apply NoDup_cons in Hnd as [Hhead Hnd].
  destruct Hin as [-> | Hin].
  - rewrite String.eqb_refl. apply lookup_step_absent.
    intros Hn. apply Hhead. by apply list_elem_of_In.
  - by apply IH.
Qed.

(** With distinct normalized names, the lookup of a registered spec's
    normalized name finds that spec. *)
Lemma lookup_present specs spec :
  NoDup (normNames specs) -> In spec specs ->
  CommandRunner.lookup specs (CommandSpec._normName spec) = Some spec.
Proof. apply lookup_step_present. Qed.

Lemma constructed_wellFormed `{Externals} spec : constructed spec -> wellFormed spec.
Proof.
  intros (syntax & summary & factory & Hnew). unfold CommandSpec.new in Hnew.
  destruct (CommandSpec.firstWord syntax) as [name|]; [|discriminate].
  destruct (Js.firstIsDash name) eqn:Hdash; [discriminate|].
  injection Hnew as <-. by split.
Qed.

Lemma addCommandsFrom_wellFormed `{Externals} group : forall specs b,
  Forall wellFormed specs -> Forall wellFormed group ->
  Forall wellFormed (fst (CommandRunner.addCommandsFrom specs b group)).
Proof.
  induction group as [|spec rest IH]; intros specs b Hs Hg; simpl; [exact Hs|].
  apply Forall_cons in Hg as [Hspec Hrest].
  destruct (CommandRunner.isDuplicate specs spec); simpl; [exact Hs|].
  apply IH; [|exact Hrest].
  apply Forall_app. split; [exact Hs|]. by apply Forall_singleton.
Qed.

Lemma setup_wellFormed `{Externals} groups : forall self,
  Forall wellFormed (CommandRunner.commandSpecs self) ->
  Forall (Forall wellFormed) groups ->
  Forall wellFormed (CommandRunner.commandSpecs (CommandRunner.setup self groups)).
Proof.
  unfold CommandRunner.setup.
  induction groups as [|group rest IH]; intros self Hs Hg; simpl; [exact Hs|].
  apply Forall_cons in Hg as [Hgroup Hrest].
  apply IH; [|exact Hrest]. simpl. by apply addCommandsFrom_wellFormed.
Qed.

(** The folding of the ASCII letters, the engine's mapping in the
    examples, neither makes nor removes a leading dash. *)
Lemma sample_keepsDash : @keepsDash Sample.externals.
Proof. intros [|c s]; simpl; [reflexivity|]. apply lowerChar_dash. Qed.

(** C4: on a runner set up from constructed specs, a letter-case variant
    of a registered spec's name (a text that lower-casing maps to the same
    text as the name) as first argument does not start with a dash, the
    lookup of its case-folded form finds that very spec, and [run] goes down
    the named path: it creates the spec's command, lets it add its options,
    and hands the option parser the arguments after the first.  Lower-casing
    is the engine's, for every cased letter; what is used of it is that it
    neither makes nor removes a leading dash. *)
Theorem run_selects_case_variant `{Externals} options sub groups spec name rest :
  keepsDash ->
  Forall (Forall constructed) groups ->
  In spec (CommandRunner.commandSpecs
             (CommandRunner.setup (CommandRunner.new options sub) groups)) ->
  letterCaseVariant name (CommandSpec._name spec) ->
  Js.firstIsDash name = false /\
  CommandRunner.lookup
    (CommandRunner.commandSpecs
       (CommandRunner.setup (CommandRunner.new options sub) groups))
    (toLowerCase name) = Some spec /\
  CommandRunner.run (CommandRunner.setup (CommandRunner.new options sub) groups)
                    (name :: rest) =
  match NamedCommand.addOptions (CommandSpec.createCommand spec)
                                CommandRunner.configOptions with
  | Throw err => ([CreateCommand spec; AddOptions spec], Throw err)
  | OK config =>
      after [CreateCommand spec; AddOptions spec; CallMinimist rest config]
            (CommandRunner.runParsed
               (CommandRunner.setup (CommandRunner.new options sub) groups)
               (Some (spec, CommandSpec.createCommand spec))
               (Minimist rest config))
  end.
Proof.
  intros Hdashes Hgroups Hin Hvariant.
  set (self := CommandRunner.setup (CommandRunner.new options sub) groups) in *.
  assert (Hnd : NoDup (normNames (CommandRunner.commandSpecs self))).
  { apply setup_NoDup. simpl. constructor. }
  assert (Hwf : wellFormed spec).
  { assert (Hall : Forall wellFormed (CommandRunner.commandSpecs self)).
    { apply setup_wellFormed; [simpl; constructor|].
      eapply Forall_impl; [exact Hgroups|]. intros group Hgroup.
      eapply Forall_impl; [exact Hgroup|]. apply constructed_wellFormed. }
    rewrite Forall_forall in Hall. apply Hall. by apply list_elem_of_In. }
  destruct Hwf as [Hnorm Hdash]. unfold letterCaseVariant in Hvariant.
  assert (Hname : Js.firstIsDash name = false).
  { by rewrite <- (Hdashes name), Hvariant, (Hdashes (CommandSpec._name spec)). }
  assert (Hlookup : CommandRunner.lookup (CommandRunner.commandSpecs self)
                      (toLowerCase name) = Some spec).
  { rewrite Hvariant, <- Hnorm. by apply lookup_present. }
  split; [exact Hname|]. split; [exact Hlookup|].
  unfold CommandRunner.run, CommandRunner.runNamed.
  by rewrite Hname, Hlookup.
Qed.

Lemma run_selects_case_variant_witness :
  @keepsDash Sample.externals /\
  Forall (Forall (@constructed Sample.externals))
         [[Sample.helloSpec; Sample.refuseSpec]] /\
  In (CommandSpec.setFirstOfGroup true Sample.helloSpec)
     (CommandRunner.commandSpecs Sample.runner) /\
  @letterCaseVariant Sample.externals "Hello" "HELLO" /\
  CommandRunner.lookup (CommandRunner.commandSpecs Sample.runner)
                       (@toLowerCase Sample.externals "Hello") =
  Some (CommandSpec.setFirstOfGroup true Sample.helloSpec).
Proof.
  assert (Hgroups : Forall (Forall (@constructed Sample.externals))
                           [[Sample.helloSpec; Sample.refuseSpec]]).
  { repeat constructor.
    - exists "HELLO", "Says hello back to you", Sample.hello. reflexivity.
    - exists "deploy <target>", "Deploys the target", Sample.refuse. reflexivity. }
  assert (Hin : In (CommandSpec.setFirstOfGroup true Sample.helloSpec)
                   (CommandRunner.commandSpecs Sample.runner)) by (left; reflexivity).
  assert (Hvariant : @letterCaseVariant Sample.externals "Hello" "HELLO")
    by reflexivity.
  split; [exact sample_keepsDash|].
  split; [exact Hgroups|]. split; [exact Hin|]. split; [exact Hvariant|].
  exact (proj1 (proj2 (@run_selects_case_variant Sample.externals None
                         CommandRunner.noOverrides
                         [[Sample.helloSpec; Sample.refuseSpec]]
                         (CommandSpec.setFirstOfGroup true Sample.helloSpec)
                         "Hello" [] sample_keepsDash Hgroups Hin Hvariant))).
Defined.

(** ** Runs *)

Lemma lookup_step_In specs : forall acc name spec,
  fold_left (fun commandSpec s =>
               if String.eqb (CommandSpec._normName s) name
               then Some s else commandSpec) specs acc = Some spec ->
  acc = Some spec \/ In spec specs.
Proof.
  induction specs as [|s rest IH]; intros acc name spec Hfold; simpl in *; [by left|].
  destruct (IH _ _ _ Hfold) as [Hacc | Hin]; [|by right; right].
  destruct (String.eqb (CommandSpec._normName s) name); [|by left].
  injection Hacc as ->. right. by left.
Qed.

(** The spec that the lookup finds is a registered one. *)
Lemma lookup_In specs name spec :
  CommandRunner.lookup specs name = Some spec -> In spec specs.
Proof.
  intros Hl. by destruct (lookup_step_In _ _ _ _ Hl) as [Hacc | Hin].
Qed.

Lemma In_map_Do ev effects : In ev (map Do effects) -> exists e, ev = Do e.
Proof. intros Hin. apply in_map_iff in Hin as (e & <- & _). by exists e. Qed.

(** Unfold [run] and split on every test it makes. *)
Ltac run_cases :=
  unfold CommandRunner.run, CommandRunner.runNamed, CommandRunner.runDefault,
    CommandRunner.runParsed, after, hookRun in *;
  repeat match goal with
         | H : context [match ?x with _ => _ end] |- _ => destruct x eqn:?; simpl in H
         | H : context [if ?x then _ else _] |- _ => destruct x eqn:?; simpl in H
         | |- context [match ?x with _ => _ end] => destruct x eqn:?; simpl
         | |- context [if ?x then _ else _] => destruct x eqn:?; simpl
         end.

(** Use up a hypothesis that an event is in a list of events. *)
Ltac in_events H :=
  simpl in H; rewrite ?in_app_iff in H; simpl in H;
  repeat match type of H with
         | _ \/ _ => destruct H as [H | H]
         | False => destruct H
         | In _ (map Do _) => apply In_map_Do in H as [? H]
         end; try discriminate H.

(** A [parseArgs] call in a run: how the run got there. *)
Lemma parseArgs_called `{Externals} self argv spec args r :
  In (ParseArgs spec args r) (fst (CommandRunner.run self argv)) ->
  exists argv0 rest config,
    argv = argv0 :: rest /\
    Js.firstIsDash argv0 = false /\
    CommandRunner.lookup (CommandRunner.commandSpecs self) (toLowerCase argv0)
      = Some spec /\
    NamedCommand.addOptions (CommandSpec.createCommand spec)
                            CommandRunner.configOptions = OK config /\
    Js.truthy (help (Minimist rest config)) = false /\
    args = CommandRunner.stringArgs (Minimist rest config) /\
    r = NamedCommand.parseArgs (CommandSpec.createCommand spec) args.
Proof.
  intros Hin. run_cases; in_events Hin; injection Hin as <- <- <-;
    match goal with
    | Hd : negb (Js.firstIsDash _) = true |- _ => apply negb_true_iff in Hd
    end;
    do 3 eexists; repeat split; eauto.
Qed.

(** A [parseDefaultArgs] call in a run: how the run got there. *)
Lemma parseDefaultArgs_called `{Externals} self argv args r :
  In (ParseDefaultArgs args r) (fst (CommandRunner.run self argv)) ->
  CommandRunner.run self argv = CommandRunner.runDefault self argv /\
  exists config,
    CommandRunner.addDefaultOptions self CommandRunner.configOptions = OK config /\
    Js.truthy (help (Minimist argv config)) = false /\
    args = CommandRunner.stringArgs (Minimist argv config) /\
    r = CommandRunner.parseDefaultArgs self args.
Proof.
  intros Hin.
  assert (Hrun : CommandRunner.run self argv = CommandRunner.runDefault self argv).
  { unfold CommandRunner.run in *. destruct argv as [|argv0 rest]; [reflexivity|].
    destruct (negb (Js.firstIsDash argv0)); [|reflexivity].
    exfalso. run_cases; in_events Hin. }
  split; [exact Hrun|]. rewrite Hrun in Hin. clear Hrun.
  run_cases; in_events Hin; injection Hin as <- <-;
    eexists; repeat split; eauto.
Qed.


(** C1: when the [parseArgs] hook of a run returned and left its
    positional list non-empty, the command is a registered one, the run ends
    by calling the callback, once, with the [UnexpectedArgError] made of the
    first leftover positional's text, and returns; no execution hook is
    called. *)
Theorem run_rejects_leftover `{Externals} self argv spec args args' arg rest :
  In (ParseArgs spec args (OK args')) (fst (CommandRunner.run self argv)) ->
  args_ args' = arg :: rest ->
  In spec (CommandRunner.commandSpecs self) /\
  (exists evs,
     fst (CommandRunner.run self argv) =
       (evs ++ [Do (next (Some (new_UnexpectedArgError (Js.String_ arg))))])%list /\
     Forall (fun ev => ~ isCallback ev /\ ~ isExecution ev) evs) /\
  snd (CommandRunner.run self argv) = OK tt /\
  cls (new_UnexpectedArgError (Js.String_ arg)) = UnexpectedArgError /\
  message (new_UnexpectedArgError (Js.String_ arg)) =
    "UnexpectedArgument: " ++ Js.dquote ++ Js.String_ arg ++ Js.dquote.
Proof.
  intros Hin Hleft.
  destruct (parseArgs_called _ _ _ _ _ Hin)
    as (argv0 & tail & config & -> & Hdash & Hlookup & Hadd & Hhelp & -> & Hparse).
  split; [by apply lookup_In in Hlookup|].
  unfold CommandRunner.run, CommandRunner.runNamed, CommandRunner.runParsed.
  rewrite Hdash, Hlookup, Hadd, Hhelp, <- Hparse, Hleft. simpl.
  split; [|by auto].
  eexists [_; _; _; _]. split; [reflexivity|].
  repeat constructor; simpl; tauto.
Qed.

Lemma run_rejects_leftover_witness :
  exists spec args args',
    In (ParseArgs spec args (OK args'))
       (fst (@CommandRunner.run Sample.externals Sample.runner ["hello"; "extra"])) /\
    args_ args' = [Js.Str "extra"] /\
    calledBack (@CommandRunner.run Sample.externals Sample.runner ["hello"; "extra"])
               (Some (new_UnexpectedArgError "extra")).
Proof.
  exists (CommandSpec.setFirstOfGroup true Sample.helloSpec),
         (mkArgs ∅ [Js.Str "extra"]), (mkArgs ∅ [Js.Str "extra"]).
  assert (Hin : In (ParseArgs (CommandSpec.setFirstOfGroup true Sample.helloSpec)
                      (mkArgs ∅ [Js.Str "extra"]) (OK (mkArgs ∅ [Js.Str "extra"])))
                   (fst (@CommandRunner.run Sample.externals Sample.runner
                           ["hello"; "extra"]))).
  { do 3 right. left. reflexivity. }
  split; [exact Hin|]. split; [reflexivity|].
  destruct (@run_rejects_leftover Sample.externals Sample.runner ["hello"; "extra"]
              _ _ _ (Js.Str "extra") [] Hin eq_refl) as (_ & (evs & Hevs & _) & _).
  unfold calledBack. rewrite Hevs. apply in_or_app. right. left. reflexivity.
Defined.



(** C3, as stated, fails: the [parseArgs] of the sample [deploy] command
    throws a [CommandError] that is no usage error, and [run] hands it to
    the callback instead of letting it escape. *)
Lemma run_catches_more_than_usage_errors :
  ~ validationPolicy CommandUsageError
      (@CommandRunner.run Sample.externals Sample.runner ["deploy"]).
Proof.
  intros Hpolicy.
  destruct (Hpolicy (NamedCommand.error "nothing to deploy")) as [_ Hescapes].
  - left. exists (CommandSpec.setFirstOfGroup false Sample.refuseSpec), (mkArgs ∅ []).
    do 3 right. left. reflexivity.
  - destruct (Hescapes eq_refl) as [Hthrown _]. discriminate Hthrown.
Qed.

(** C3 (amended): what a validation hook ([parseArgs] or
    [parseDefaultArgs]) throws goes to the callback, as the very error
    thrown and as the last thing the run does, when it is an instance of
    [CommandError] (usage errors are); any other error escapes from [run],
    and the callback is not called. *)
Theorem run_validation_policy `{Externals} self argv :
  validationPolicy CommandError (CommandRunner.run self argv).
Proof.
  intros err [(spec & args & Hin) | (args & Hin)].
  - destruct (parseArgs_called _ _ _ _ _ Hin)
      as (argv0 & tail & config & -> & Hdash & Hlookup & Hadd & Hhelp & -> & Hparse).
    unfold CommandRunner.run, CommandRunner.runNamed, CommandRunner.runParsed.
    rewrite Hdash, Hlookup, Hadd, Hhelp, <- Hparse. simpl.
    destruct (instanceof err CommandError); split; intros Hkind;
      try discriminate Hkind; simpl.
    + split; [|reflexivity]. eexists [_; _; _; _]. split; [reflexivity|].
      repeat constructor; simpl; tauto.
    + split; [reflexivity|]. repeat constructor; simpl; tauto.
  - destruct (parseDefaultArgs_called _ _ _ _ Hin)
      as (-> & config & Hadd & Hhelp & -> & Hparse).
    unfold CommandRunner.runDefault, CommandRunner.runParsed, after.
    rewrite Hadd, Hhelp, <- Hparse. simpl.
    destruct (instanceof err CommandError); split; intros Hkind;
      try discriminate Hkind; simpl.
    + split; [|reflexivity]. eexists [_; _; _]. split; [reflexivity|].
      repeat constructor; simpl; tauto.
    + split; [reflexivity|]. repeat constructor; simpl; tauto.
Qed.

Lemma run_validation_policy_witness :
  validationThrew (@CommandRunner.run Sample.externals Sample.runner ["deploy"])
                  (NamedCommand.error "nothing to deploy") /\
  instanceof (NamedCommand.error "nothing to deploy") CommandError = true /\
  snd (@CommandRunner.run Sample.externals Sample.runner ["deploy"]) = OK tt.
Proof.
  assert (Hthrew : validationThrew
                     (@CommandRunner.run Sample.externals Sample.runner ["deploy"])
                     (NamedCommand.error "nothing to deploy")).
  { left. exists (CommandSpec.setFirstOfGroup false Sample.refuseSpec), (mkArgs ∅ []).
    do 3 right. left. reflexivity. }
  split; [exact Hthrew|]. split; [reflexivity|].
  exact (proj2 (proj1 (@run_validation_policy Sample.externals Sample.runner ["deploy"]
                         _ Hthrew) eq_refl)).
Defined.

Lemma prefix_app part rest : String.prefix part (part ++ rest) = true.
Proof.
  induction part as [|c part IH]; [by destruct rest|].
  change (String.prefix (String c part) (String c (part ++ rest)) = true).
  simpl. by destruct (Ascii.ascii_dec c c).
Qed.

Lemma includes_here part rest : includes part (part ++ rest) = true.
Proof.
  assert (Hstep : forall s, includes part s =
                            String.prefix part s ||
                            match s with
                            | EmptyString => false
                            | String _ r => includes part r
                            end) by (by intros []).
  by rewrite Hstep, prefix_app.
Qed.

Lemma includes_after part before s :
  includes part s = true -> includes part (before ++ s) = true.
Proof.
  intros Hs. induction before as [|c before IH]; [exact Hs|].
  change (includes part (String c (before ++ s)) = true).
  simpl. rewrite IH. apply orb_true_r.
Qed.

(** C7, as stated, fails: for the first argument [Bogus] the message is
    [unrecognized command 'bogus'], which does not contain [Bogus]. *)
Lemma unrecognized_name_is_folded :
  ~ reportsCommand (@CommandRunner.run Sample.externals Sample.runner ["Bogus"]) "Bogus".
Proof.
  intros (err & Hcalled & _ & Hname).
  destruct Hcalled as [Hcalled | []]. injection Hcalled as <-.
  vm_compute in Hname. discriminate.
Qed.

(** C7 (amended): when the first argument does not begin with a dash and
    its case-folded form is the normalized name of no registered spec, the
    one thing [run] does is to call the callback with a [CommandUsageError]
    whose message contains the command name in its case-folded form, the
    form in which [run] looks it up; no handler is created, no hook is
    called. *)
Theorem run_unrecognized_command `{Externals} self argv0 rest :
  Js.firstIsDash argv0 = false ->
  ~ In (toLowerCase argv0) (normNames (CommandRunner.commandSpecs self)) ->
  exists err,
    CommandRunner.run self (argv0 :: rest) = ([Do (next (Some err))], OK tt) /\
    cls err = CommandUsageError /\
    instanceof err CommandUsageError = true /\
    message err = "unrecognized command '" ++ toLowerCase argv0 ++ "'" /\
    reportsCommand (CommandRunner.run self (argv0 :: rest)) (toLowerCase argv0) /\
    Forall (fun ev => ~ isInstantiation ev /\ ~ isValidation ev /\ ~ isExecution ev)
           (fst (CommandRunner.run self (argv0 :: rest))).
Proof.
  intros Hdash Habsent.
  unfold reportsCommand, calledBack, CommandRunner.run, CommandRunner.runNamed.
  rewrite Hdash, (lookup_absent _ _ Habsent). simpl.
  eexists. split; [reflexivity|]. do 3 (split; [reflexivity|]). split.
  - eexists. split; [left; reflexivity|]. split; [reflexivity|].
    unfold new_CommandUsageError. cbn [message].
    apply includes_after, includes_here.
  - repeat constructor; simpl; tauto.
Qed.

Lemma run_unrecognized_command_witness :
  Js.firstIsDash "Bogus" = false /\
  ~ In (@toLowerCase Sample.externals "Bogus")
       (normNames (CommandRunner.commandSpecs Sample.runner)) /\
  @CommandRunner.run Sample.externals Sample.runner ["Bogus"] =
    ([Do (next (Some (new_CommandUsageError "unrecognized command 'bogus'")))], OK tt).
Proof.
  assert (Habsent : ~ In (@toLowerCase Sample.externals "Bogus")
                      (normNames (CommandRunner.commandSpecs Sample.runner))).
  { simpl. intros [Hh | [Hd | []]]; discriminate. }
  split; [reflexivity|]. split; [exact Habsent|].
  destruct (@run_unrecognized_command Sample.externals Sample.runner "Bogus" []
              eq_refl Habsent) as (err & Hrun & _ & _ & Hmsg & _).
  rewrite Hrun. destruct err as [c m]. simpl in Hmsg. subst m.
  injection Hrun as <-. reflexivity.
Defined.

(** C8: the runner's own [doDefaultCommand] calls the callback once, with
    an error: a [CommandUsageError] saying [Missing command argument] when
    some command is registered, a plain [Error] saying
    [Default command not implemented] when none is; it throws nothing and
    never completes without an error. *)
Theorem doDefaultCommand_fails self args :
  CommandRunner.override_doDefaultCommand (CommandRunner.class self) = None ->
  exists err,
    CommandRunner.doDefaultCommand self args = ([next (Some err)], None) /\
    (CommandRunner.commandSpecs self <> [] ->
       err = new_CommandUsageError "Missing command argument" /\
       instanceof err CommandUsageError = true) /\
    (CommandRunner.commandSpecs self = [] ->
       err = new_Error "Default command not implemented") /\
    ~ In (next None) (fst (CommandRunner.doDefaultCommand self args)).
Proof.
  intros Hbase. unfold CommandRunner.doDefaultCommand, CommandRunner.base_doDefaultCommand.
  rewrite Hbase. destruct (CommandRunner.commandSpecs self) as [|spec specs];
    eexists; (split; [reflexivity|]); simpl;
    (repeat split; [try congruence; tauto .. | intros [Hc | []]; discriminate Hc]).
Qed.

Lemma doDefaultCommand_fails_witness :
  CommandRunner.override_doDefaultCommand (CommandRunner.class Sample.runner) = None /\
  CommandRunner.doDefaultCommand Sample.runner (mkArgs ∅ []) =
    ([next (Some (new_CommandUsageError "Missing command argument"))], None).
Proof.
  split; [reflexivity|].
  destruct (doDefaultCommand_fails Sample.runner (mkArgs ∅ []) eq_refl)
    as (err & Hdo & Hsome & _).
  rewrite Hdo. destruct Hsome as [-> _]; [discriminate|reflexivity].
Defined.

(** C10: with no command registered, the error that the runner's own
    [doDefaultCommand] gives the callback is a plain [Error], an instance of
    neither [CommandError] nor [CommandUsageError]; a callback that sorts
    errors by these two classes, as the demo's does, writes nothing and
    throws it again. *)
Theorem doDefaultCommand_plain_error self args :
  CommandRunner.override_doDefaultCommand (CommandRunner.class self) = None ->
  CommandRunner.commandSpecs self = [] ->
  exists err,
    CommandRunner.doDefaultCommand self args = ([next (Some err)], None) /\
    cls err = Error_ /\
    instanceof err CommandError = false /\
    instanceof err CommandUsageError = false /\
    Demo.callback (Some err) = Demo.Rethrown err.
Proof.
  intros Hbase Hnone.
  unfold CommandRunner.doDefaultCommand, CommandRunner.base_doDefaultCommand.
  rewrite Hbase, Hnone. eexists. split; [reflexivity|]. by repeat split.
Qed.

Lemma doDefaultCommand_plain_error_witness :
  CommandRunner.override_doDefaultCommand (CommandRunner.class Sample.empty) = None /\
  CommandRunner.commandSpecs Sample.empty = [] /\
  exists err,
    CommandRunner.doDefaultCommand Sample.empty (mkArgs ∅ []) = ([next (Some err)], None) /\
    Demo.callback (Some err) = Demo.Rethrown err.
Proof.
  split; [reflexivity|]. split; [reflexivity|].
  destruct (doDefaultCommand_plain_error Sample.empty (mkArgs ∅ []) eq_refl eq_refl)
    as (err & Hdo & _ & _ & _ & Hdemo).
  exists err. split; [exact Hdo|exact Hdemo].
Defined.

(** ** The help page *)

Lemma text_app_assoc (a b c : string) : (a ++ b) ++ c = a ++ (b ++ c).
Proof.
  induction a as [|ch a IH]; [reflexivity|].
  change (String ch ((a ++ b) ++ c) = String ch (a ++ (b ++ c))). by rewrite IH.
Qed.

Lemma text_app_nil_r (a : string) : a ++ EmptyString = a.
Proof.
  induction a as [|ch a IH]; [reflexivity|].
  change (String ch (a ++ EmptyString) = String ch a). by rewrite IH.
Qed.

Lemma concatText_app (l k : list string) :
  concatText (l ++ k) = concatText l ++ concatText k.
Proof.
  induction l as [|s l IH]; simpl; [reflexivity|].
  by rewrite IH, text_app_assoc.
Qed.

(** The [forEach] of [getHelp] appends, spec by spec, the flagged lines. *)
Lemma getHelp_loop `{Externals} self rightMargin specs : forall help,
  CommandRunner.override_getHelpSummaryEntry (CommandRunner.class self) = None ->
  fold_left (fun help spec =>
               let help := if CommandSpec._firstOfGroup spec
                           then help ++ Js.LF else help in
               help ++ CommandRunner.getHelpSummaryEntry self spec rightMargin)
            specs help =
  help ++ concatText (map (flaggedText rightMargin) specs).
Proof.
  induction specs as [|spec rest IH]; intros help Hentry; simpl.
  - by rewrite text_app_nil_r.
  - rewrite (IH _ Hentry). unfold CommandRunner.getHelpSummaryEntry. rewrite Hentry.
    unfold flaggedText.
    change (CommandRunner.base_getHelpSummaryEntry spec rightMargin)
      with (entryText rightMargin spec).
    destruct (CommandSpec._firstOfGroup spec); by rewrite !text_app_assoc.
Qed.

Lemma marked_rest_text `{Externals} rightMargin group :
  concatText (map (flaggedText rightMargin) (marked false group)) =
  concatText (map (entryText rightMargin) group).
Proof.
  induction group as [|spec rest IH]; simpl; [reflexivity|]. by rewrite IH.
Qed.

Lemma marked_group_text `{Externals} rightMargin group :
  concatText (map (flaggedText rightMargin) (marked true group)) =
  groupText rightMargin group.
Proof.
  destruct group as [|spec rest]; simpl; [reflexivity|].
  by rewrite marked_rest_text.
Qed.

Lemma marked_groups_text `{Externals} rightMargin groups :
  concatText (map (flaggedText rightMargin) (concat (map (marked true) groups))) =
  concatText (map (groupText rightMargin) groups).
Proof.
  induction groups as [|group rest IH]; simpl; [reflexivity|].
  by rewrite map_app, concatText_app, IH, marked_group_text.
Qed.

(** C9, as stated, fails: on a runner with no command [getHelp] does not
    return the introduction followed by the trailer. *)
Lemma getHelp_empty_registry :
  @CommandRunner.getHelp Sample.externals Sample.empty 80 <>
  @helpByFlags Sample.externals Sample.empty 80.
Proof. vm_compute. discriminate. Qed.

(** C9 (amended): the runner's own [getHelp], with its own summary entry,
    returns [Help is not available.] when no command is registered;
    otherwise it returns the introduction, then for each registered spec in
    registration order its name in upper case with the rest of the syntax on
    one line and the wrapped summary on the next, with a blank line before
    each spec flagged first of its group, then the trailer.  On a runner set
    up by [addCommands] calls that all succeeded, that is a blank line
    before the first spec of each group added. *)
Theorem getHelp_page `{Externals} self rightMargin :
  CommandRunner.override_getHelp (CommandRunner.class self) = None ->
  CommandRunner.override_getHelpSummaryEntry (CommandRunner.class self) = None ->
  (CommandRunner.commandSpecs self = [] ->
     CommandRunner.getHelp self rightMargin = "Help is not available.") /\
  (CommandRunner.commandSpecs self <> [] ->
     CommandRunner.getHelp self rightMargin = helpByFlags self rightMargin) /\
  (forall options groups,
     self = CommandRunner.setup (CommandRunner.new options (CommandRunner.class self))
                                groups ->
     NoDup (normNames (concat groups)) ->
     helpByFlags self rightMargin = helpPage self rightMargin groups).
Proof.
  intros Hhelp Hentry.
  unfold CommandRunner.getHelp, CommandRunner.base_getHelp. rewrite Hhelp.
  split; [by intros ->|]. split.
  - intros Hsome. destruct (CommandRunner.commandSpecs self) as [|spec specs] eqn:Hspecs;
      [congruence|].
    rewrite (getHelp_loop self rightMargin _ _ Hentry).
    unfold helpByFlags. by rewrite Hspecs, text_app_assoc.
  - intros options groups Hself Hnd. unfold helpByFlags, helpPage.
    assert (Hspecs : CommandRunner.commandSpecs self =
                     concat (map (marked true) groups)).
    { rewrite Hself at 1. by rewrite setup_fresh. }
    by rewrite Hspecs, marked_groups_text.
Qed.

Lemma getHelp_page_witness :
  CommandRunner.override_getHelp (CommandRunner.class Sample.runner) = None /\
  CommandRunner.override_getHelpSummaryEntry (CommandRunner.class Sample.runner) = None /\
  CommandRunner.commandSpecs Sample.runner <> [] /\
  NoDup (normNames (concat [[Sample.helloSpec; Sample.refuseSpec]])) /\
  @CommandRunner.getHelp Sample.externals Sample.runner 80 =
  @helpPage Sample.externals Sample.runner 80 [[Sample.helloSpec; Sample.refuseSpec]].
Proof.
  assert (Hnd : NoDup (normNames (concat [[Sample.helloSpec; Sample.refuseSpec]]))).
  { simpl. repeat constructor; simpl; intros Hin; inversion Hin; subst;
      try discriminate; inversion H1. }
  assert (Hsome : CommandRunner.commandSpecs Sample.runner <> []) by discriminate.
  split; [reflexivity|]. split; [reflexivity|]. split; [exact Hsome|].
  split; [exact Hnd|].
  destruct (@getHelp_page Sample.externals Sample.runner 80 eq_refl eq_refl)
    as (_ & Hflags & Hgroups).
  rewrite (Hflags Hsome).
  exact (Hgroups None [[Sample.helloSpec; Sample.refuseSpec]] eq_refl Hnd).
Defined.

(** ** The scenarios of the specification, on the sample runner *)

Example scenario_hello :
  @CommandRunner.run Sample.externals Sample.runner ["hello"] =
  ([CreateCommand (CommandSpec.setFirstOfGroup true Sample.helloSpec);
    AddOptions (CommandSpec.setFirstOfGroup true Sample.helloSpec);
    CallMinimist [] CommandRunner.configOptions;
    ParseArgs (CommandSpec.setFirstOfGroup true Sample.helloSpec)
              (mkArgs ∅ []) (OK (mkArgs ∅ []));
    DoCommand (CommandSpec.setFirstOfGroup true Sample.helloSpec) (mkArgs ∅ []);
    Do (next None)],
   OK tt).
Proof. reflexivity. Qed.

Example scenario_extra_argument :
  calledBack (@CommandRunner.run Sample.externals Sample.runner ["HELLO"; "extra"])
             (Some (new_UnexpectedArgError "extra")).
Proof. do 4 right. left. reflexivity. Qed.

Example scenario_missing_command :
  @CommandRunner.run Sample.externals Sample.runner [] =
  ([AddDefaultOptions; CallMinimist [] CommandRunner.configOptions;
    ParseDefaultArgs (mkArgs ∅ []) (OK (mkArgs ∅ []));
    DoDefaultCommand (mkArgs ∅ []);
    Do (next (Some (new_CommandUsageError "Missing command argument")))],
   OK tt).
Proof. reflexivity. Qed.

Example scenario_not_implemented :
  @CommandRunner.run Sample.externals Sample.empty [] =
  ([AddDefaultOptions; CallMinimist [] CommandRunner.configOptions;
    ParseDefaultArgs (mkArgs ∅ []) (OK (mkArgs ∅ []));
    DoDefaultCommand (mkArgs ∅ []);
    Do (next (Some (new_Error "Default command not implemented")))],
   OK tt).
Proof. reflexivity. Qed.

Example scenario_help :
  @CommandRunner.run Sample.externals Sample.runner ["--help"] =
  ([AddDefaultOptions; CallMinimist ["--help"] CommandRunner.configOptions;
    Do (stdout_write
          ("This tool supports the following commands:" ++ Js.LF ++ Js.LF ++
           "HELLO" ++ Js.LF ++ "  Says hello back to you" ++ Js.LF ++
           "DEPLOY <target>" ++ Js.LF ++ "  Deploys the target" ++ Js.LF ++ Js.LF));
    Do (next None)],
   OK tt).
Proof. reflexivity. Qed.

Example scenario_same_flag_twice :
  exists r r',
    CommandUtil.addOptions CommandRunner.configOptions Sample.verboseOptions = OK r /\
    CommandUtil.addOptions r Sample.verboseOptions = OK r' /\
    booleanList r' = [Flag "h"; Flag "v"; Flag "v"].
Proof. do 2 eexists. split; [reflexivity|]. split; reflexivity. Qed.

(** * Further properties of the code *)

(** ** Taking the positional arguments one by one *)

Lemma nextNonOptionArgs_parts n : forall args,
  fst (nextNonOptionArgs n args) =
    (map Some (take n (args_ args))
     ++ replicate (n - length (args_ args)) None)%list /\
  args_ (snd (nextNonOptionArgs n args)) = drop n (args_ args) /\
  options (snd (nextNonOptionArgs n args)) = options args.
Proof.
  induction n as [|n IH]; intros args; simpl.
  - by rewrite drop_0.
  - destruct (IH (snd (CommandUtil.nextNonOptionArg args))) as (Hres & Hleft & Hopts).
    rewrite Hres, Hleft, Hopts. unfold CommandUtil.nextNonOptionArg.
    destruct (args_ args) as [|arg rest] eqn:Hargs; simpl.
    + rewrite Hargs. simpl. by rewrite take_nil, drop_nil, Nat.sub_0_r.
    + done.
Qed.

(** X1: [n] calls of [nextNonOptionArg] in a row return the positional
    arguments from the left, in order, then [null] for every call that finds
    the list used up; they leave the arguments not yet taken, and the
    options as they were. *)
Theorem nextNonOptionArgs_drains n : forall args,
  fst (nextNonOptionArgs n args) =
    (map Some (take n (args_ args))
     ++ replicate (n - length (args_ args)) None)%list /\
  args_ (snd (nextNonOptionArgs n args)) = drop n (args_ args) /\
  options (snd (nextNonOptionArgs n args)) = options args.
Proof.
  induction n as [|n IH]; intros args; simpl.
  - by rewrite drop_0.
  - destruct (IH (snd (CommandUtil.nextNonOptionArg args))) as (Hres & Hleft & Hopts).
    rewrite Hres, Hleft, Hopts. unfold CommandUtil.nextNonOptionArg.
    destruct (args_ args) as [|arg rest] eqn:Hargs; simpl.
    + rewrite Hargs. simpl. by rewrite take_nil, drop_nil, Nat.sub_0_r.
    + done.
Qed.

(** ** The registry: adding and finding *)

Lemma lookup_step_name specs : forall acc name spec,
  fold_left (fun commandSpec s =>
               if String.eqb (CommandSpec._normName s) name
               then Some s else commandSpec) specs acc = Some spec ->
  acc = Some spec \/ (In spec specs /\ CommandSpec._normName spec = name).
Proof.
  induction specs as [|s rest IH]; intros acc name spec Hfold; simpl in *; [by left|].
  destruct (IH _ _ _ Hfold) as [Hacc | [Hin Hname]]; [|by right; auto].
  destruct (String.eqb_spec (CommandSpec._normName s) name) as [Heq|_]; [|by left].
  injection Hacc as ->. right. auto.
Qed.

Lemma lookup_step_found specs name :
  In name (normNames specs) ->
  forall acc, exists found,
    fold_left (fun commandSpec s =>
                 if String.eqb (CommandSpec._normName s) name
                 then Some s else commandSpec) specs acc = Some found.
Proof.
  induction specs as [|s rest IH]; intros Hin acc; [destruct Hin|]. simpl.
  destruct (in_dec string_dec name (normNames rest)) as [Hmore | Hlast].
  - by apply IH.
  - destruct Hin as [Hname | Hin]; [|contradiction].
    rewrite Hname, String.eqb_refl, (lookup_step_absent _ _ _ Hlast). by exists s.
Qed.

Lemma lookup_found specs name spec :
  CommandRunner.lookup specs name = Some spec ->
  In spec specs /\ CommandSpec._normName spec = name.
Proof. intros Hl. by destruct (lookup_step_name _ _ _ _ Hl) as [Hacc | Hin]. Qed.

(** X2: the lookup of [run] finds nothing exactly when the name is the
    normalized name of no spec in the list; and a spec it finds is in the
    list and has the name as its normalized name. *)
Theorem lookup_registered specs name :
  (CommandRunner.lookup specs name = None <-> ~ In name (normNames specs)) /\
  (forall spec, CommandRunner.lookup specs name = Some spec ->
                In spec specs /\ CommandSpec._normName spec = name).
Proof.
  split; [|apply lookup_found]. split.
  - intros Hnone Hin. destruct (lookup_step_found specs name Hin None) as [found Hfound].
    unfold CommandRunner.lookup in Hnone. congruence.
  - apply lookup_absent.
Qed.

Lemma marked_In group : forall b spec,
  In spec group -> exists b', In (CommandSpec.setFirstOfGroup b' spec) (marked b group).
Proof.
  induction group as [|s rest IH]; intros b spec Hin; [destruct Hin|].
  destruct Hin as [-> | Hin].
  - exists b. by left.
  - destruct (IH false spec Hin) as [b' Hb']. exists b'. by right.
Qed.

(** X3: a group whose normalized names are new to the registry and
    distinct is added whole and nothing is thrown: the registry keeps its
    specs and their order, the group follows in its order, its first spec
    flagged and the others not; after that the lookup finds every spec of
    the group and every spec registered before under its normalized name. *)
Theorem addCommands_appends self group :
  NoDup (normNames (CommandRunner.commandSpecs self ++ group)) ->
  CommandRunner.addCommands self group =
    (CommandRunner.mk (CommandRunner.commandSpecs self ++ marked true group)
                      (CommandRunner.helpWrapWidth self) (CommandRunner.class self),
     None) /\
  (forall prior, In prior (CommandRunner.commandSpecs self) ->
     CommandRunner.lookup
       (CommandRunner.commandSpecs (fst (CommandRunner.addCommands self group)))
       (CommandSpec._normName prior) = Some prior) /\
  (forall spec, In spec group ->
     exists b,
       CommandRunner.lookup
         (CommandRunner.commandSpecs (fst (CommandRunner.addCommands self group)))
         (CommandSpec._normName spec) = Some (CommandSpec.setFirstOfGroup b spec)).
Proof.
  intros Hnd. unfold CommandRunner.addCommands.
  rewrite (addCommandsFrom_fresh _ _ _ Hnd). simpl.
  assert (Hnd' : NoDup (normNames (CommandRunner.commandSpecs self ++ marked true group))).
  { unfold normNames in *. rewrite map_app in *.
    by rewrite (normNames_marked group true : map _ _ = map _ _). }
  split; [reflexivity|]. split.
  - intros prior Hin. apply lookup_present; [exact Hnd'|].
    apply in_or_app. by left.
  - intros spec Hin. destruct (marked_In group true spec Hin) as [b Hb].
    exists b.
    change (CommandSpec._normName spec)
      with (CommandSpec._normName (CommandSpec.setFirstOfGroup b spec)).
    apply lookup_present; [exact Hnd'|]. apply in_or_app. by right.
Qed.

Lemma addCommands_appends_witness :
  NoDup (normNames (CommandRunner.commandSpecs Sample.empty
                    ++ [Sample.helloSpec; Sample.refuseSpec])) /\
  CommandRunner.commandSpecs
    (fst (CommandRunner.addCommands Sample.empty [Sample.helloSpec; Sample.refuseSpec])) =
  [CommandSpec.setFirstOfGroup true Sample.helloSpec;
   CommandSpec.setFirstOfGroup false Sample.refuseSpec].
Proof.
  assert (Hnd : NoDup (normNames (CommandRunner.commandSpecs Sample.empty
                                  ++ [Sample.helloSpec; Sample.refuseSpec]))).
  { simpl. repeat constructor; simpl; intros Hin; inversion Hin; subst;
      try discriminate; inversion H1. }
  split; [exact Hnd|].
  by rewrite (proj1 (addCommands_appends Sample.empty
                       [Sample.helloSpec; Sample.refuseSpec] Hnd)).
Defined.

(** X4: [addCommands] does not undo what it did when it throws: the specs
    of the group before the first one whose normalized name is taken stay
    registered (the first of them flagged), that one and the specs after it
    are not added, and the error names it. *)
Theorem addCommands_partial self pre dup post :
  NoDup (normNames (CommandRunner.commandSpecs self ++ pre)) ->
  In (CommandSpec._normName dup) (normNames (CommandRunner.commandSpecs self ++ pre)) ->
  CommandRunner.addCommands self (pre ++ dup :: post) =
    (CommandRunner.mk (CommandRunner.commandSpecs self ++ marked true pre)
                      (CommandRunner.helpWrapWidth self) (CommandRunner.class self),
     Some (new_Error ("duplicate command name '" ++ CommandSpec._normName dup ++ "'"))).
Proof.
  unfold CommandRunner.addCommands.
  assert (Hloop : forall pre b specs,
    NoDup (normNames (specs ++ pre)) ->
    In (CommandSpec._normName dup) (normNames (specs ++ pre)) ->
    CommandRunner.addCommandsFrom specs b (pre ++ dup :: post) =
      ((specs ++ marked b pre)%list,
       Some (new_Error ("duplicate command name '" ++ CommandSpec._normName dup ++ "'")))).
  { clear pre. induction pre as [|p pre IH]; intros b specs Hnd Hin; simpl.
    - rewrite app_nil_r in *. apply isDuplicate_true in Hin. by rewrite Hin.
    - assert (Hfresh : CommandRunner.isDuplicate specs p = false).
      { apply isDuplicate_false. intros Hp.
        unfold normNames in Hnd. rewrite map_app in Hnd. simpl in Hnd.
        apply NoDup_app in Hnd as (_ & Hdisj & _).
        apply (Hdisj (CommandSpec._normName p)).
        - by apply list_elem_of_In.
        - apply list_elem_of_here. }
      rewrite Hfresh, IH.
      + by rewrite <- app_assoc.
      + unfold normNames in *. rewrite <- app_assoc. rewrite !map_app in *.
        simpl in *. exact Hnd.
      + unfold normNames in *. rewrite <- app_assoc. rewrite !map_app in *.
        simpl in *. exact Hin. }
  intros Hnd Hin. cbv zeta. rewrite (Hloop pre true _ Hnd Hin). reflexivity.
Qed.

Lemma addCommands_partial_witness :
  NoDup (normNames (CommandRunner.commandSpecs Sample.empty ++ [Sample.helloSpec])) /\
  In (CommandSpec._normName Sample.helloSpec)
     (normNames (CommandRunner.commandSpecs Sample.empty ++ [Sample.helloSpec])) /\
  CommandRunner.commandSpecs
    (fst (CommandRunner.addCommands Sample.empty
            [Sample.helloSpec; Sample.helloSpec; Sample.refuseSpec])) =
  [CommandSpec.setFirstOfGroup true Sample.helloSpec].
Proof.
  assert (Hnd : NoDup (normNames (CommandRunner.commandSpecs Sample.empty
                                  ++ [Sample.helloSpec]))).
  { simpl. repeat constructor. intros Hin. inversion Hin. }
  assert (Hin : In (CommandSpec._normName Sample.helloSpec)
                   (normNames (CommandRunner.commandSpecs Sample.empty
                               ++ [Sample.helloSpec]))) by (left; reflexivity).
  split; [exact Hnd|]. split; [exact Hin|].
  exact (f_equal (fun r => CommandRunner.commandSpecs (fst r))
           (addCommands_partial Sample.empty [Sample.helloSpec] Sample.helloSpec
              [Sample.refuseSpec] Hnd Hin)).
Defined.

(** ** Constructing a spec *)

Lemma word_split s :
  exists rest, s = CommandSpec.word s ++ rest /\
               hasSpace (CommandSpec.word s) = false /\
               (rest = EmptyString \/ exists r, rest = String " "%char r).
Proof.
  induction s as [|c s (rest & Hs & Hno & Hrest)]; simpl.
  - exists EmptyString. auto.
  - destruct (Ascii.eqb c " "%char) eqn:Hc.
    + apply Ascii.eqb_eq in Hc. subst c. exists (String " "%char s). eauto.
    + exists rest. split; [|split; [simpl; by rewrite Hc|exact Hrest]].
      change (String c s = String c (CommandSpec.word s ++ rest)). by rewrite <- Hs.
Qed.

Lemma firstWord_None s : CommandSpec.firstWord s = None <-> allSpaces s = true.
Proof.
  induction s as [|c s IH]; simpl; [done|].
  destruct (Ascii.eqb c " "%char); simpl; [exact IH|]. split; discriminate.
Qed.

Lemma firstWord_Some s name :
  CommandSpec.firstWord s = Some name ->
  exists lead c tail,
    s = lead ++ String c tail /\ allSpaces lead = true /\
    Ascii.eqb c " "%char = false /\ name = CommandSpec.word (String c tail).
Proof.
  induction s as [|c s IH]; simpl; [discriminate|].
  destruct (Ascii.eqb c " "%char) eqn:Hc.
  - intros Hw. destruct (IH Hw) as (lead & c' & tail & -> & Hlead & Hc' & ->).
    exists (String c lead), c', tail. repeat split; auto. simpl. by rewrite Hc.
  - intros [= <-]. exists EmptyString, c, s. repeat split; auto. simpl. by rewrite Hc.
Qed.

Lemma firstWord_lead lead c tail :
  allSpaces lead = true -> Ascii.eqb c " "%char = false ->
  CommandSpec.firstWord (lead ++ String c tail) = Some (CommandSpec.word (String c tail)).
Proof.
  intros Hlead Hc. induction lead as [|l lead IH].
  - change (CommandSpec.firstWord (String c tail) = Some (CommandSpec.word (String c tail))).
    simpl. by rewrite Hc.
  - simpl in Hlead. apply andb_true_iff in Hlead as [Hl Hlead].
    change (CommandSpec.firstWord (String l (lead ++ String c tail)) =
            Some (CommandSpec.word (String c tail))).
    simpl. rewrite Hl. by apply IH.
Qed.

(** What the constructor makes of the syntax. *)
Lemma new_spec_parts `{Externals} syntax summary factory spec :
  CommandSpec.new syntax summary factory = OK spec ->
  CommandSpec._syntax spec = syntax /\
  CommandSpec._summary spec = summary /\
  CommandSpec.createCommand spec = factory /\
  CommandSpec._firstOfGroup spec = false /\
  CommandSpec._name spec <> EmptyString /\
  hasSpace (CommandSpec._name spec) = false /\
  Js.firstIsDash (CommandSpec._name spec) = false /\
  CommandSpec._normName spec = toLowerCase (CommandSpec._name spec) /\
  exists lead rest,
    syntax = lead ++ CommandSpec._name spec ++ rest /\
    allSpaces lead = true /\
    (rest = EmptyString \/ exists r, rest = String " "%char r).
Proof.
  unfold CommandSpec.new. intros Hnew.
  destruct (CommandSpec.firstWord syntax) as [name|] eqn:Hword; [|discriminate].
  destruct (Js.firstIsDash name) eqn:Hdash; [discriminate|].
  injection Hnew as <-. simpl.
  destruct (firstWord_Some _ _ Hword) as (lead & c & tail & -> & Hlead & Hc & ->).
  destruct (word_split (String c tail)) as (rest & Hsplit & Hno & Hrest).
  repeat split; auto.
  - simpl. by rewrite Hc.
  - exists lead, rest. by rewrite <- Hsplit.
Qed.

(** X5: a spec that the constructor returns keeps the syntax and the
    summary it was given and is not flagged; its name is the first run of
    characters other than spaces in the syntax: it follows the leading
    spaces, is not empty, holds no space, does not start with a dash, and
    ends where the syntax ends or at a space; its normalized name is what
    the engine's lower-casing makes of the name. *)
Theorem new_spec_name `{Externals} syntax summary factory spec :
  CommandSpec.new syntax summary factory = OK spec ->
  CommandSpec._syntax spec = syntax /\
  CommandSpec._summary spec = summary /\
  CommandSpec.createCommand spec = factory /\
  CommandSpec._firstOfGroup spec = false /\
  CommandSpec._name spec <> EmptyString /\
  hasSpace (CommandSpec._name spec) = false /\
  Js.firstIsDash (CommandSpec._name spec) = false /\
  CommandSpec._normName spec = toLowerCase (CommandSpec._name spec) /\
  exists lead rest,
    syntax = lead ++ CommandSpec._name spec ++ rest /\
    allSpaces lead = true /\
    (rest = EmptyString \/ exists r, rest = String " "%char r).
Proof.
  intros Hnew.
  destruct (new_spec_parts _ _ _ _ Hnew)
    as (Hsyntax & Hsummary & Hfactory & Hflag & Hname & Hspace & Hdash & Hnorm & Hsplit).
  repeat (split; [assumption|]). exact Hsplit.
Qed.

Lemma new_spec_name_witness :
  @CommandSpec.new Sample.externals "  Deploy <target>" "Deploys the target" Sample.refuse
    = OK (CommandSpec.mk "Deploy" "deploy" "  Deploy <target>" "Deploys the target"
                         false Sample.refuse) /\
  hasSpace "Deploy" = false /\
  exists lead rest,
    "  Deploy <target>" = lead ++ "Deploy" ++ rest /\ allSpaces lead = true.
Proof.
  assert (Hnew : @CommandSpec.new Sample.externals "  Deploy <target>"
                   "Deploys the target" Sample.refuse
                 = OK (CommandSpec.mk "Deploy" "deploy" "  Deploy <target>"
                                      "Deploys the target" false Sample.refuse))
    by reflexivity.
  split; [exact Hnew|].
  destruct (@new_spec_name Sample.externals _ _ _ _ Hnew)
    as (_ & _ & _ & _ & _ & Hspace & _ & _ & lead & rest & Hsplit & Hlead & _).
  split; [exact Hspace|]. exists lead, rest. split; [exact Hsplit|exact Hlead].
Defined.

(** X6: the constructor throws exactly when the syntax holds nothing but
    spaces (it may be empty) or when its first character other than a space
    is a dash; what it throws is a plain [Error], no [CommandError], with
    the message of the case. *)
Theorem new_spec_throws `{Externals} syntax summary factory :
  (allSpaces syntax = true ->
     CommandSpec.new syntax summary factory =
     Throw (new_Error ("'" ++ syntax ++ "' is missing a command name"))) /\
  (forall lead tail,
     syntax = lead ++ String "-"%char tail -> allSpaces lead = true ->
     CommandSpec.new syntax summary factory =
     Throw (new_Error ("Command name '" ++ CommandSpec.word (String "-"%char tail)
                       ++ " cannot start with a dash"))) /\
  (forall err,
     CommandSpec.new syntax summary factory = Throw err ->
     cls err = Error_ /\ instanceof err CommandError = false /\
     (allSpaces syntax = true \/
      exists lead tail, syntax = lead ++ String "-"%char tail /\ allSpaces lead = true)).
Proof.
  unfold CommandSpec.new. split; [|split].
  - intros Hspaces. apply firstWord_None in Hspaces. by rewrite Hspaces.
  - intros lead tail -> Hlead. by rewrite (firstWord_lead lead "-"%char tail Hlead eq_refl).
  - intros err Hthrow.
    destruct (CommandSpec.firstWord syntax) as [name|] eqn:Hword.
    + destruct (Js.firstIsDash name) eqn:Hdash; [|discriminate].
      injection Hthrow as <-. repeat split. right.
      destruct (firstWord_Some _ _ Hword) as (lead & c & tail & -> & Hlead & Hc & ->).
      simpl in Hdash. rewrite Hc in Hdash. simpl in Hdash.
      apply Ascii.eqb_eq in Hdash. subst c. eauto.
    + injection Hthrow as <-. repeat split. left. by apply firstWord_None.
Qed.

Lemma new_spec_throws_witness :
  allSpaces "  " = true /\
  @CommandSpec.new Sample.externals "  " "nothing" Sample.hello =
    Throw (new_Error "'  ' is missing a command name") /\
  @CommandSpec.new Sample.externals " -x <file>" "nothing" Sample.hello =
    Throw (new_Error "Command name '-x cannot start with a dash").
Proof.
  split; [reflexivity|]. split.
  - exact (proj1 (@new_spec_throws Sample.externals "  " "nothing" Sample.hello) eq_refl).
  - exact (proj1 (proj2 (@new_spec_throws Sample.externals " -x <file>" "nothing"
                           Sample.hello))
             " " "x <file>" eq_refl eq_refl).
Defined.

Lemma substr_app name rest : Js.substr (name ++ rest) (String.length name) = rest.
Proof.
  induction name as [|c name IH]; simpl; [by destruct rest|].
  exact IH.
Qed.

(** X7: for a spec constructed from a syntax that does not begin with a
    space, the summary entry of the help page is the syntax with the command
    name in upper case on one line, and the summary, indented by two spaces
    and wrapped, on the next. *)
Theorem summaryEntry_syntax `{Externals} syntax summary factory spec rightMargin :
  CommandSpec.new syntax summary factory = OK spec ->
  allSpaces (String.substring 0 1 syntax) = false ->
  exists rest,
    syntax = CommandSpec._name spec ++ rest /\
    CommandRunner.base_getHelpSummaryEntry spec rightMargin =
      toUpperCase (CommandSpec._name spec) ++ rest ++ Js.LF ++
      wrapText ("  " ++ summary) rightMargin true ++ Js.LF.
Proof.
  intros Hnew Hfirst.
  destruct (new_spec_parts _ _ _ _ Hnew)
    as (Hsyntax & Hsummary & _ & _ & _ & _ & _ & _ & lead & rest & Hsplit & Hlead & _).
  assert (Hnolead : lead = EmptyString).
  { destruct lead as [|l lead]; [reflexivity|]. exfalso.
    simpl in Hlead. apply andb_true_iff in Hlead as [Hl _].
    rewrite Hsplit in Hfirst.
    change (allSpaces (String.substring 0 1 (String l (lead ++ CommandSpec._name spec ++ rest)))
            = false) in Hfirst.
    simpl in Hfirst. rewrite Hl in Hfirst. destruct (lead ++ _); discriminate. }
  subst lead. change (syntax = CommandSpec._name spec ++ rest) in Hsplit.
  exists rest. split; [exact Hsplit|].
  unfold CommandRunner.base_getHelpSummaryEntry.
  rewrite Hsyntax, Hsummary. rewrite Hsplit at 1. by rewrite substr_app.
Qed.

Lemma summaryEntry_syntax_witness :
  @CommandSpec.new Sample.externals "deploy <target>" "Deploys the target" Sample.refuse
    = OK Sample.refuseSpec /\
  allSpaces (String.substring 0 1 "deploy <target>") = false /\
  exists rest,
    "deploy <target>" = "deploy" ++ rest /\
    @CommandRunner.base_getHelpSummaryEntry Sample.externals Sample.refuseSpec 80 =
      "DEPLOY" ++ rest ++ Js.LF ++ "  Deploys the target" ++ Js.LF.
Proof.
  split; [reflexivity|]. split; [reflexivity|].
  exact (@summaryEntry_syntax Sample.externals "deploy <target>" "Deploys the target"
           Sample.refuse Sample.refuseSpec 80 eq_refl eq_refl).
Defined.

(** ** More on runs *)

Lemma upperChar_lowerChar c : Js.isUpper c = true -> Js.upperChar (Js.lowerChar c) = c.
Proof. destruct c as [[] [] [] [] [] [] [] []]; (reflexivity || discriminate). Qed.

Lemma lowerChar_fixed c : Js.isUpper c = false -> Js.lowerChar c = c.
Proof. unfold Js.lowerChar. by intros ->. Qed.

Lemma lowerChar_sameLetter a b : Js.lowerChar a = Js.lowerChar b -> Js.sameLetter a b.
Proof.
  intros Heq. unfold Js.sameLetter.
  destruct (Js.isUpper a) eqn:Ha, (Js.isUpper b) eqn:Hb.
  - left. by rewrite <- (upperChar_lowerChar a Ha), Heq, (upperChar_lowerChar b Hb).
  - right. left. split; [reflexivity|]. by rewrite Heq, (lowerChar_fixed b Hb).
  - right. right. split; [reflexivity|]. by rewrite <- Heq, (lowerChar_fixed a Ha).
  - left. by rewrite <- (lowerChar_fixed a Ha), Heq, (lowerChar_fixed b Hb).
Qed.

(** Two strings that fold to the same string are letter-case variants. *)
Lemma toLowerCase_caseVariant s : forall t,
  Js.toLowerCase s = Js.toLowerCase t -> Js.caseVariant s t.
Proof.
  induction s as [|a s IH]; intros [|b t] Heq; simpl in Heq; try discriminate.
  - constructor.
  - injection Heq as Hab Hst. constructor; [by apply lowerChar_sameLetter|by apply IH].
Qed.

Lemma createCommand_called `{Externals} self argv spec :
  In (CreateCommand spec) (fst (CommandRunner.run self argv)) ->
  exists argv0 rest,
    argv = argv0 :: rest /\ Js.firstIsDash argv0 = false /\
    CommandRunner.lookup (CommandRunner.commandSpecs self) (toLowerCase argv0)
      = Some spec.
Proof.
  intros Hin. run_cases; in_events Hin; injection Hin as <-;
    match goal with
    | Hd : negb (Js.firstIsDash _) = true |- _ => apply negb_true_iff in Hd
    end; eauto.
Qed.

(** X8: [run] creates the command of a spec only when that spec is
    registered and the first argument is a letter-case variant of its name,
    a text that the engine's lower-casing maps to the same text as the name
    (the registered specs having the names their constructor gave them). *)
Theorem run_selects_only_variants `{Externals} self argv spec :
  Forall wellFormed (CommandRunner.commandSpecs self) ->
  In (CreateCommand spec) (fst (CommandRunner.run self argv)) ->
  In spec (CommandRunner.commandSpecs self) /\
  exists argv0 rest,
    argv = argv0 :: rest /\ letterCaseVariant argv0 (CommandSpec._name spec).
Proof.
  intros Hwf Hin.
  destruct (createCommand_called _ _ _ Hin) as (argv0 & rest & -> & _ & Hlookup).
  destruct (lookup_found _ _ _ Hlookup) as [Hreg Hname].
  split; [exact Hreg|]. exists argv0, rest. split; [reflexivity|].
  rewrite Forall_forall in Hwf. destruct (Hwf spec) as [Hnorm _]; [by apply list_elem_of_In|].
  unfold letterCaseVariant. congruence.
Qed.

Lemma run_selects_only_variants_witness :
  Forall (@wellFormed Sample.externals) (CommandRunner.commandSpecs Sample.runner) /\
  In (CreateCommand (CommandSpec.setFirstOfGroup true Sample.helloSpec))
     (fst (@CommandRunner.run Sample.externals Sample.runner ["Hello"])) /\
  exists argv0 rest,
    ["Hello"] = argv0 :: rest /\ @letterCaseVariant Sample.externals argv0 "HELLO".
Proof.
  assert (Hwf : Forall (@wellFormed Sample.externals)
                       (CommandRunner.commandSpecs Sample.runner)).
  { repeat constructor. }
  assert (Hin : In (CreateCommand (CommandSpec.setFirstOfGroup true Sample.helloSpec))
                   (fst (@CommandRunner.run Sample.externals Sample.runner ["Hello"]))).
  { left. reflexivity. }
  split; [exact Hwf|]. split; [exact Hin|].
  exact (proj2 (@run_selects_only_variants Sample.externals Sample.runner ["Hello"]
                  _ Hwf Hin)).
Defined.

Lemma run_default `{Externals} self argv :
  namesCommand argv = false ->
  CommandRunner.run self argv = CommandRunner.runDefault self argv.
Proof.
  unfold namesCommand, CommandRunner.run. destruct argv as [|argv0 rest]; [done|].
  by intros ->.
Qed.

Lemma run_named `{Externals} self argv0 rest :
  Js.firstIsDash argv0 = false ->
  CommandRunner.run self (argv0 :: rest) = CommandRunner.runNamed self argv0 rest.
Proof. unfold CommandRunner.run. by intros ->. Qed.

(** Settle that every event of a list of events has a property that is
    plain on each kind of event. *)
Ltac all_events :=
  repeat first [ solve [constructor]
               | apply Forall_cons; split; [simpl; try tauto; try reflexivity|]
               | apply Forall_map; apply Forall_forall; intros; simpl; tauto ].

(** X9: the two paths of [run] do not mix.  When [argv] is empty or its
    first element begins with a dash, no command is created and no hook of
    a named command is called, whatever follows the first element, and the
    option parser is given the whole of [argv]; otherwise no hook of the
    default command is called, and the option parser is given [argv]
    without its first element. *)
Theorem run_paths `{Externals} self argv :
  (namesCommand argv = false ->
   Forall (fun ev => match ev with
                     | CreateCommand _ | AddOptions _ | ParseArgs _ _ _
                     | DoCommand _ _ => False
                     | CallMinimist args _ => args = argv
                     | _ => True
                     end) (fst (CommandRunner.run self argv))) /\
  (namesCommand argv = true ->
   Forall (fun ev => match ev with
                     | AddDefaultOptions | ParseDefaultArgs _ _
                     | DoDefaultCommand _ => False
                     | CallMinimist args _ => args = tail argv
                     | _ => True
                     end) (fst (CommandRunner.run self argv))).
Proof.
  split; intros Hpath.
  - rewrite (run_default _ _ Hpath).
    unfold CommandRunner.runDefault, CommandRunner.runParsed, after, hookRun.
    repeat match goal with
           | |- context [match ?x with _ => _ end] => destruct x eqn:?; simpl
           | |- context [if ?x then _ else _] => destruct x eqn:?; simpl
           end; all_events.
  - destruct argv as [|argv0 rest]; [discriminate|]. simpl in Hpath.
    apply negb_true_iff in Hpath. rewrite (run_named _ _ _ Hpath).
    unfold CommandRunner.runNamed, CommandRunner.runParsed, after, hookRun.
    repeat match goal with
           | |- context [match ?x with _ => _ end] => destruct x eqn:?; simpl
           | |- context [if ?x then _ else _] => destruct x eqn:?; simpl
           end; all_events.
Qed.

Lemma run_paths_witness :
  namesCommand ["-v"; "hello"] = false /\
  ~ In (CreateCommand (CommandSpec.setFirstOfGroup true Sample.helloSpec))
       (fst (@CommandRunner.run Sample.externals Sample.runner ["-v"; "hello"])).
Proof.
  split; [reflexivity|]. intros Hin.
  pose proof (proj1 (@run_paths Sample.externals Sample.runner ["-v"; "hello"]) eq_refl)
    as Hall.
  rewrite Forall_forall in Hall. apply list_elem_of_In in Hin. exact (Hall _ Hin).
Defined.

(** X10: the arguments that a validation hook receives are those of the
    option parser with every positional argument turned into a string by
    [String]; the option values are as the parser gave them. *)
Theorem validation_gets_strings `{Externals} self argv args r :
  (exists spec, In (ParseArgs spec args r) (fst (CommandRunner.run self argv))) \/
  In (ParseDefaultArgs args r) (fst (CommandRunner.run self argv)) ->
  Forall isString (args_ args) /\
  exists parsed config,
    In (CallMinimist parsed config) (fst (CommandRunner.run self argv)) /\
    options args = options (Minimist parsed config) /\
    args_ args = map (fun arg => Js.Str (Js.String_ arg))
                     (args_ (Minimist parsed config)).
Proof.
  assert (Hstr : forall l, Forall isString (map (fun arg => Js.Str (Js.String_ arg)) l)).
  { intros l. apply Forall_map, Forall_forall. intros; exact I. }
  intros [[spec Hin] | Hin].
  - destruct (parseArgs_called _ _ _ _ _ Hin)
      as (argv0 & tail & config & -> & Hdash & Hlookup & Hadd & Hhelp & -> & _).
    split; [apply Hstr|]. exists tail, config. split; [|by split].
    rewrite (run_named _ _ _ Hdash). unfold CommandRunner.runNamed.
    rewrite Hlookup, Hadd. simpl. auto.
  - destruct (parseDefaultArgs_called _ _ _ _ Hin)
      as (Hrun & config & Hadd & Hhelp & -> & _).
    split; [apply Hstr|]. exists argv, config. split; [|by split].
    rewrite Hrun. unfold CommandRunner.runDefault. rewrite Hadd. simpl. auto.
Qed.

Lemma validation_gets_strings_witness :
  args_ (@Minimist Sample.typing ["42"; "x"] CommandRunner.configOptions)
    = [Js.Num "42"; Js.Str "x"] /\
  In (ParseArgs (CommandSpec.setFirstOfGroup true Sample.helloSpec)
                (mkArgs ∅ [Js.Str "42"; Js.Str "x"])
                (OK (mkArgs ∅ [Js.Str "42"; Js.Str "x"])))
     (fst (@CommandRunner.run Sample.typing Sample.runner ["hello"; "42"; "x"])) /\
  Forall isString (args_ (mkArgs ∅ [Js.Str "42"; Js.Str "x"])).
Proof.
  assert (Hin : In (ParseArgs (CommandSpec.setFirstOfGroup true Sample.helloSpec)
                      (mkArgs ∅ [Js.Str "42"; Js.Str "x"])
                      (OK (mkArgs ∅ [Js.Str "42"; Js.Str "x"])))
                   (fst (@CommandRunner.run Sample.typing Sample.runner
                           ["hello"; "42"; "x"]))).
  { do 3 right. left. reflexivity. }
  split; [reflexivity|]. split; [exact Hin|].
  exact (proj1 (@validation_gets_strings Sample.typing Sample.runner
                  ["hello"; "42"; "x"] _ _
                  (or_introl (ex_intro
                     (fun spec => In (ParseArgs spec _ _) _)
                     (CommandSpec.setFirstOfGroup true Sample.helloSpec) Hin)))).
Defined.

(** X11: when a validation hook returned and left no positional argument,
    the execution hook of the same path is called next, with the arguments
    as the validation hook left them; before it the run performed no effect,
    after it the run does what the hook does and nothing else, and it
    returns or throws as the hook does. *)
Theorem run_executes `{Externals} self argv args args' :
  args_ args' = [] ->
  (forall spec,
     In (ParseArgs spec args (OK args')) (fst (CommandRunner.run self argv)) ->
     exists evs,
       fst (CommandRunner.run self argv) =
         (evs ++ DoCommand spec args'
              :: map Do (fst (NamedCommand.doCommand (CommandSpec.createCommand spec) args')))%list /\
       Forall (fun ev => ~ isEffect ev /\ ~ isExecution ev) evs /\
       snd (CommandRunner.run self argv) =
         match snd (NamedCommand.doCommand (CommandSpec.createCommand spec) args') with
         | Some err => Throw err
         | None => OK tt
         end) /\
  (In (ParseDefaultArgs args (OK args')) (fst (CommandRunner.run self argv)) ->
   exists evs,
     fst (CommandRunner.run self argv) =
       (evs ++ DoDefaultCommand args'
            :: map Do (fst (CommandRunner.doDefaultCommand self args')))%list /\
     Forall (fun ev => ~ isEffect ev /\ ~ isExecution ev) evs /\
     snd (CommandRunner.run self argv) =
       match snd (CommandRunner.doDefaultCommand self args') with
       | Some err => Throw err
       | None => OK tt
       end).
Proof.
  intros Hnone. split.
  - intros spec Hin.
    destruct (parseArgs_called _ _ _ _ _ Hin)
      as (argv0 & tail & config & -> & Hdash & Hlookup & Hadd & Hhelp & -> & Hparse).
    rewrite (run_named _ _ _ Hdash).
    unfold CommandRunner.runNamed, CommandRunner.runParsed, after, hookRun.
    rewrite Hlookup, Hadd, Hhelp, <- Hparse, Hnone. simpl.
    eexists [_; _; _; _]. split; [reflexivity|]. split; [all_events|reflexivity].
  - intros Hin.
    destruct (parseDefaultArgs_called _ _ _ _ Hin)
      as (Hrun & config & Hadd & Hhelp & -> & Hparse).
    rewrite Hrun.
    unfold CommandRunner.runDefault, CommandRunner.runParsed, after, hookRun.
    rewrite Hadd, Hhelp, <- Hparse, Hnone. simpl.
    eexists [_; _; _]. split; [reflexivity|]. split; [all_events|reflexivity].
Qed.

Lemma run_executes_witness :
  args_ (mkArgs ∅ []) = [] /\
  In (ParseArgs (CommandSpec.setFirstOfGroup true Sample.helloSpec)
                (mkArgs ∅ []) (OK (mkArgs ∅ [])))
     (fst (@CommandRunner.run Sample.externals Sample.runner ["hello"])) /\
  snd (@CommandRunner.run Sample.externals Sample.runner ["hello"]) = OK tt.
Proof.
  assert (Hin : In (ParseArgs (CommandSpec.setFirstOfGroup true Sample.helloSpec)
                      (mkArgs ∅ []) (OK (mkArgs ∅ [])))
                   (fst (@CommandRunner.run Sample.externals Sample.runner ["hello"]))).
  { do 3 right. left. reflexivity. }
  split; [reflexivity|]. split; [exact Hin|].
  destruct (proj1 (@run_executes Sample.externals Sample.runner ["hello"]
                     (mkArgs ∅ []) (mkArgs ∅ []) eq_refl) _ Hin) as (evs & _ & _ & Hret).
  exact Hret.
Defined.

(** X12: an exception thrown while the options are declared, by the
    [addOptions] hook of the command or by [addDefaultOptions], escapes from
    [run] whatever its class, a [CommandError] too: the option parser is not
    called, no later hook is called, and the callback is not called. *)
Theorem run_option_declaration_throws `{Externals} self argv err :
  (forall argv0 rest spec,
     argv = argv0 :: rest -> Js.firstIsDash argv0 = false ->
     CommandRunner.lookup (CommandRunner.commandSpecs self) (toLowerCase argv0)
       = Some spec ->
     NamedCommand.addOptions (CommandSpec.createCommand spec)
                             CommandRunner.configOptions = Throw err ->
     CommandRunner.run self argv = ([CreateCommand spec; AddOptions spec], Throw err)) /\
  (namesCommand argv = false ->
   CommandRunner.addDefaultOptions self CommandRunner.configOptions = Throw err ->
   CommandRunner.run self argv = ([AddDefaultOptions], Throw err)).
Proof.
  split.
  - intros argv0 rest spec -> Hdash Hlookup Hadd.
    rewrite (run_named _ _ _ Hdash). unfold CommandRunner.runNamed.
    by rewrite Hlookup, Hadd.
  - intros Hpath Hadd. rewrite (run_default _ _ Hpath).
    unfold CommandRunner.runDefault. by rewrite Hadd.
Qed.

Lemma run_option_declaration_throws_witness :
  Js.firstIsDash "sync" = false /\
  instanceof (NamedCommand.usageError "bad option table") CommandError = true /\
  snd (@CommandRunner.run Sample.externals Sample.faultyRunner ["sync"]) =
    Throw (NamedCommand.usageError "bad option table").
Proof.
  split; [reflexivity|]. split; [reflexivity|].
  exact (f_equal snd
           (proj1 (@run_option_declaration_throws Sample.externals Sample.faultyRunner
                     ["sync"] (NamedCommand.usageError "bad option table"))
                  "sync" [] (CommandSpec.setFirstOfGroup true Sample.faultySpec)
                  eq_refl eq_refl eq_refl eq_refl)).
Defined.

(** With a callback that returns, [runWith] is [run]. *)
Lemma runWith_returns `{Externals} callback self argv :
  returns callback ->
  CommandRunner.runWith callback self argv = CommandRunner.run self argv.
Proof.
  intros Hret.
  unfold CommandRunner.runWith, CommandRunner.runNamedWith, CommandRunner.runDefaultWith,
    CommandRunner.runParsedWith, CommandRunner.doDefaultCommandWith,
    CommandRunner.base_doDefaultCommandWith,
    CommandRunner.run, CommandRunner.runNamed, CommandRunner.runDefault,
    CommandRunner.runParsed, CommandRunner.doDefaultCommand,
    CommandRunner.base_doDefaultCommand, after, hookRun, thrown.
  repeat match goal with
         | |- context [match ?x with OK _ => _ | Throw _ => _ end] =>
             destruct x eqn:?; simpl
         | |- context [match ?x with [] => _ | _ :: _ => _ end] =>
             destruct x eqn:?; simpl
         | |- context [match ?x with Some _ => _ | None => _ end] =>
             lazymatch x with
             | callback _ _ => rewrite (Hret _ _)
             | _ => destruct x eqn:?; simpl
             end
         | |- context [if ?x then _ else _] => destruct x eqn:?; simpl
         end; rewrite ?Hret; reflexivity.
Qed.

Ltac callback_result :=
  first [ reflexivity
        | match goal with
          | Hc : _ = _ |- _ => rewrite Hc; reflexivity
          end ].

Ltac one_call :=
  split; [reflexivity|]; split; [solve [all_events]|]; split; [callback_result|];
  let e := fresh "e" in
  let He := fresh "He" in
  intros e He;
  first [ discriminate He | injection He as <-; (reflexivity || assumption) ].

Ltac two_calls :=
  split; [reflexivity|]; split; [solve [all_events]|]; split; [reflexivity|];
  split; [assumption|]; split; [assumption|reflexivity].

Ltac hands_over :=
  split; [reflexivity|]; split; [solve [all_events]|]; split; [exact I|reflexivity].

(** The four shapes of a run with a callback that may throw: it throws
    before any effect; it ends by one call of the callback; it ends by a
    second call, after the callback threw a [CommandError] when given the
    [UnexpectedArgError]; or it hands over to an execution hook. *)
Lemma runWith_shape `{Externals} callback self argv :
  (exists e,
     snd (CommandRunner.runWith callback self argv) = Throw e /\
     Forall (fun ev => ~ isEffect ev /\ ~ isExecution ev)
            (fst (CommandRunner.runWith callback self argv))) \/
  (exists evs err,
     fst (CommandRunner.runWith callback self argv) = (evs ++ [Do (next err)])%list /\
     Forall (fun ev => ~ isCallback ev /\ ~ isExecution ev) evs /\
     snd (CommandRunner.runWith callback self argv) = thrown (callback 0%nat err) /\
     (forall e, err = Some e -> instanceof e CommandError = true)) \/
  (exists evs unexpected e,
     fst (CommandRunner.runWith callback self argv) =
       (evs ++ [Do (next (Some unexpected)); Do (next (Some e))])%list /\
     Forall (fun ev => ~ isCallback ev /\ ~ isExecution ev) evs /\
     cls unexpected = UnexpectedArgError /\
     callback 0%nat (Some unexpected) = Some e /\
     instanceof e CommandError = true /\
     snd (CommandRunner.runWith callback self argv) = thrown (callback 1%nat (Some e))) \/
  (exists evs exec hook,
     fst (CommandRunner.runWith callback self argv)
       = (evs ++ exec :: map Do (fst hook))%list /\
     Forall (fun ev => ~ isEffect ev /\ ~ isExecution ev) evs /\
     isExecution exec /\
     snd (CommandRunner.runWith callback self argv) =
       match snd hook with
       | Some e => Throw e
       | None => OK tt
       end).
Proof.
  unfold CommandRunner.runWith, CommandRunner.runNamedWith, CommandRunner.runDefaultWith,
    CommandRunner.runParsedWith, after, hookRun.
  repeat match goal with
         | |- context [match ?x with OK _ => _ | Throw _ => _ end] =>
             destruct x eqn:?; simpl
         | |- context [match ?x with Some _ => _ | None => _ end] =>
             lazymatch x with
             | snd _ => fail
             | _ => destruct x eqn:?; simpl
             end
         | |- context [match ?x with [] => _ | _ :: _ => _ end] =>
             destruct x eqn:?; simpl
         | |- context [if ?x then _ else _] => destruct x eqn:?; simpl
         end;
    first
      [ left; eexists; split; [reflexivity|]; solve [all_events]
      | right; left;
        first [ eexists [], _; one_call | eexists [_], _; one_call
              | eexists [_; _], _; one_call | eexists [_; _; _], _; one_call
              | eexists [_; _; _; _], _; one_call ]
      | right; right; left;
        first [ eexists [_; _; _], _, _; two_calls
              | eexists [_; _; _; _], _, _; two_calls ]
      | right; right; right;
        first [ eexists [_; _; _], _, _; hands_over
              | eexists [_; _; _; _], _, _; hands_over ] ].
Qed.

Lemma no_execution_in (evs : list Event) exec (tail : list Event) :
  isExecution exec -> ~ Forall (fun ev => ~ isExecution ev) (evs ++ exec :: tail).
Proof.
  intros Hexec Hall. apply Forall_app in Hall as [_ Hall].
  apply Forall_cons in Hall as [Hnot _]. by apply Hnot.
Qed.

(** X13: the calls of the callback by [run] itself, for a callback that
    may throw.  A run in which no execution hook is called either throws
    before any effect; or calls the callback once, as the last thing it
    does, and returns or throws as that call does; or, when the callback
    given the [UnexpectedArgError] throws a [CommandError], calls it a
    second time, with that error, and returns or throws as the second call
    does.  With a callback that returns, the run is the one that [run]
    describes. *)
Theorem runWith_callback_calls `{Externals} callback self argv :
  (Forall (fun ev => ~ isExecution ev) (fst (CommandRunner.runWith callback self argv)) ->
   (exists e,
      snd (CommandRunner.runWith callback self argv) = Throw e /\
      Forall (fun ev => ~ isEffect ev) (fst (CommandRunner.runWith callback self argv))) \/
   (exists evs err,
      fst (CommandRunner.runWith callback self argv) = (evs ++ [Do (next err)])%list /\
      Forall (fun ev => ~ isCallback ev) evs /\
      snd (CommandRunner.runWith callback self argv) = thrown (callback 0%nat err)) \/
   (exists evs unexpected e,
      fst (CommandRunner.runWith callback self argv) =
        (evs ++ [Do (next (Some unexpected)); Do (next (Some e))])%list /\
      Forall (fun ev => ~ isCallback ev) evs /\
      cls unexpected = UnexpectedArgError /\
      callback 0%nat (Some unexpected) = Some e /\
      instanceof e CommandError = true /\
      snd (CommandRunner.runWith callback self argv) = thrown (callback 1%nat (Some e)))) /\
  (returns callback ->
   CommandRunner.runWith callback self argv = CommandRunner.run self argv).
Proof.
  split; [|apply runWith_returns].
  intros Hnone.
  destruct (runWith_shape callback self argv)
    as [(e & Hthrow & Hevs)
       | [(evs & err & Htrace & Hevs & Hret & _)
         | [(evs & unexpected & e & Htrace & Hevs & Hcls & Hfirst & Hkind & Hret)
           | (evs & exec & hook & Htrace & _ & Hexec & _)]]].
  - left. exists e. split; [exact Hthrow|].
    eapply Forall_impl; [exact Hevs|]. simpl. tauto.
  - right. left. exists evs, err. split; [exact Htrace|]. split; [|exact Hret].
    eapply Forall_impl; [exact Hevs|]. simpl. tauto.
  - right. right. exists evs, unexpected, e. split; [exact Htrace|].
    split; [|by auto]. eapply Forall_impl; [exact Hevs|]. simpl. tauto.
  - exfalso. rewrite Htrace in Hnone. exact (no_execution_in evs exec _ Hexec Hnone).
Qed.

Lemma runWith_callback_calls_witness :
  Forall (fun ev => ~ isExecution ev)
         (fst (@CommandRunner.runWith Sample.externals Sample.grumpy Sample.runner
                 ["hello"; "extra"])) /\
  fst (@CommandRunner.runWith Sample.externals Sample.grumpy Sample.runner
         ["hello"; "extra"]) =
    [CreateCommand (CommandSpec.setFirstOfGroup true Sample.helloSpec);
     AddOptions (CommandSpec.setFirstOfGroup true Sample.helloSpec);
     CallMinimist ["extra"] CommandRunner.configOptions;
     ParseArgs (CommandSpec.setFirstOfGroup true Sample.helloSpec)
               (mkArgs ∅ [Js.Str "extra"]) (OK (mkArgs ∅ [Js.Str "extra"]));
     Do (next (Some (new_UnexpectedArgError "extra")));
     Do (next (Some (NamedCommand.error "no more arguments, please")))] /\
  ((exists e,
      snd (@CommandRunner.runWith Sample.externals Sample.grumpy Sample.runner
             ["hello"; "extra"]) = Throw e /\
      Forall (fun ev => ~ isEffect ev)
             (fst (@CommandRunner.runWith Sample.externals Sample.grumpy Sample.runner
                     ["hello"; "extra"]))) \/
   (exists evs err,
      fst (@CommandRunner.runWith Sample.externals Sample.grumpy Sample.runner
             ["hello"; "extra"]) = (evs ++ [Do (next err)])%list /\
      Forall (fun ev => ~ isCallback ev) evs /\
      snd (@CommandRunner.runWith Sample.externals Sample.grumpy Sample.runner
             ["hello"; "extra"]) = thrown (Sample.grumpy 0%nat err)) \/
   (exists evs unexpected e,
      fst (@CommandRunner.runWith Sample.externals Sample.grumpy Sample.runner
             ["hello"; "extra"]) =
        (evs ++ [Do (next (Some unexpected)); Do (next (Some e))])%list /\
      Forall (fun ev => ~ isCallback ev) evs /\
      cls unexpected = UnexpectedArgError /\
      Sample.grumpy 0%nat (Some unexpected) = Some e /\
      instanceof e CommandError = true /\
      snd (@CommandRunner.runWith Sample.externals Sample.grumpy Sample.runner
             ["hello"; "extra"]) = thrown (Sample.grumpy 1%nat (Some e)))).
Proof.
  assert (Hnone : Forall (fun ev => ~ isExecution ev)
                    (fst (@CommandRunner.runWith Sample.externals Sample.grumpy
                            Sample.runner ["hello"; "extra"]))).
  { repeat constructor; simpl; tauto. }
  split; [exact Hnone|]. split; [reflexivity|].
  exact (proj1 (@runWith_callback_calls Sample.externals Sample.grumpy Sample.runner
                  ["hello"; "extra"]) Hnone).
Defined.

Lemma instanceof_usage_error err :
  instanceof err CommandUsageError = true -> instanceof err CommandError = true.
Proof. destruct err as [[] msg]; simpl; (reflexivity || discriminate). Qed.

Lemma demo_next_handles k err :
  (forall e, err = Some e -> instanceof e CommandError = true) ->
  Demo.next k err = None.
Proof.
  intros Hkind. unfold Demo.next, Demo.callback. destruct err as [e|]; [|reflexivity].
  rewrite (Hkind e eq_refl). by destruct (instanceof e CommandUsageError).
Qed.

(** X14: the demo's callback throws an error again exactly when it is no
    [CommandError]; it writes the message of a usage error, followed by the
    hint [(-h for help)] and a line feed, and the message of any other
    [CommandError], followed by a line feed, to standard error.  So in a run
    with the demo's callback where no execution hook is called, whatever
    [run] hands to the callback is taken without an exception: the callback
    does nothing when there is no error and writes the error's message
    otherwise, and the run returns. *)
Theorem demo_callback_handles `{Externals} self argv :
  (forall err,
     (instanceof err CommandError = false ->
        Demo.callback (Some err) = Demo.Rethrown err) /\
     (instanceof err CommandUsageError = true ->
        Demo.callback (Some err) =
        Demo.Stderr (message err ++ " (-h for help)" ++ Js.LF)) /\
     (instanceof err CommandError = true -> instanceof err CommandUsageError = false ->
        Demo.callback (Some err) = Demo.Stderr (message err ++ Js.LF))) /\
  (forall err,
     calledBack (CommandRunner.runWith Demo.next self argv) err ->
     Forall (fun ev => ~ isExecution ev)
            (fst (CommandRunner.runWith Demo.next self argv)) ->
     snd (CommandRunner.runWith Demo.next self argv) = OK tt /\
     ((err = None /\ Demo.callback err = Demo.Silent) \/
      (exists e, err = Some e /\ instanceof e CommandError = true /\
                 (Demo.callback err =
                    Demo.Stderr (message e ++ " (-h for help)" ++ Js.LF) \/
                  Demo.callback err = Demo.Stderr (message e ++ Js.LF))))).
Proof.
  assert (Hdemo : forall err,
     (instanceof err CommandError = false ->
        Demo.callback (Some err) = Demo.Rethrown err) /\
     (instanceof err CommandUsageError = true ->
        Demo.callback (Some err) =
        Demo.Stderr (message err ++ " (-h for help)" ++ Js.LF)) /\
     (instanceof err CommandError = true -> instanceof err CommandUsageError = false ->
        Demo.callback (Some err) = Demo.Stderr (message err ++ Js.LF))).
  { intros err. unfold Demo.callback. split; [|split].
    - intros Hkind. destruct (instanceof err CommandUsageError) eqn:Husage.
      + apply instanceof_usage_error in Husage. congruence.
      + by rewrite Hkind.
    - by intros ->.
    - by intros -> ->. }
  split; [exact Hdemo|].
  intros err Hcalled Hnone. unfold calledBack in Hcalled.
  destruct (runWith_shape Demo.next self argv)
    as [(e & _ & Hevs)
       | [(evs & err' & Htrace & Hevs & Hret & Hclass)
         | [(evs & unexpected & e & _ & _ & Hcls & Hfirst & _)
           | (evs & exec & hook & Htrace & _ & Hexec & _)]]].
  - exfalso. rewrite Forall_forall in Hevs.
    apply list_elem_of_In in Hcalled. destruct (Hevs _ Hcalled) as [Heff _]. by apply Heff.
  - rewrite Htrace in Hcalled. apply in_app_iff in Hcalled as [Hin | [Hlast | []]].
    + exfalso. rewrite Forall_forall in Hevs.
      apply list_elem_of_In in Hin. destruct (Hevs _ Hin) as [Hcb _]. by apply Hcb.
    + injection Hlast as ->. rewrite Hret, (demo_next_handles _ _ Hclass).
      split; [reflexivity|]. destruct err as [e|]; [right|by left].
      exists e. split; [reflexivity|]. split; [by apply Hclass|].
      destruct (instanceof e CommandUsageError) eqn:Husage.
      * left. by apply Hdemo.
      * right. apply Hdemo; [by apply Hclass|exact Husage].
  - exfalso. rewrite demo_next_handles in Hfirst; [discriminate|].
    intros e0 [= <-]. destruct unexpected as [c m]. simpl in Hcls. by subst c.
  - exfalso. rewrite Htrace in Hnone. exact (no_execution_in evs exec _ Hexec Hnone).
Qed.

Lemma demo_callback_handles_witness :
  calledBack (@CommandRunner.runWith Sample.externals Demo.next Sample.runner
                ["hello"; "extra"])
             (Some (new_UnexpectedArgError "extra")) /\
  Forall (fun ev => ~ isExecution ev)
         (fst (@CommandRunner.runWith Sample.externals Demo.next Sample.runner
                 ["hello"; "extra"])) /\
  snd (@CommandRunner.runWith Sample.externals Demo.next Sample.runner
         ["hello"; "extra"]) = OK tt.
Proof.
  assert (Hcalled : calledBack
                      (@CommandRunner.runWith Sample.externals Demo.next Sample.runner
                         ["hello"; "extra"])
                      (Some (new_UnexpectedArgError "extra"))).
  { do 4 right. left. reflexivity. }
  assert (Hnone : Forall (fun ev => ~ isExecution ev)
                    (fst (@CommandRunner.runWith Sample.externals Demo.next Sample.runner
                            ["hello"; "extra"]))).
  { repeat constructor; simpl; tauto. }
  split; [exact Hcalled|]. split; [exact Hnone|].
  exact (proj1 (proj2 (@demo_callback_handles Sample.externals Sample.runner
                         ["hello"; "extra"]) _ Hcalled Hnone)).
Defined.




Lemma ParsedArgs_eta (args : ParsedArgs) : args = mkArgs (options args) (args_ args).
Proof. by destruct args. Qed.

(** X16: a command whose [parseArgs] makes [k] calls of
    [nextNonOptionArg] accepts up to [k] positional arguments: given no more
    than [k], [doCommand] is called, with the options as parsed and no
    positional left; given more, the callback gets the
    [UnexpectedArgError] of the one after the first [k], and no execution
    hook is called. *)
Theorem run_takes_positionals `{Externals} self argv0 rest spec config k :
  Js.firstIsDash argv0 = false ->
  CommandRunner.lookup (CommandRunner.commandSpecs self) (toLowerCase argv0)
    = Some spec ->
  NamedCommand.addOptions (CommandSpec.createCommand spec) CommandRunner.configOptions
    = OK config ->
  Js.truthy (help (Minimist rest config)) = false ->
  (forall args, NamedCommand.parseArgs (CommandSpec.createCommand spec) args
                = OK (snd (nextNonOptionArgs k args))) ->
  ((length (args_ (Minimist rest config)) <= k)%nat ->
   In (DoCommand spec (mkArgs (options (Minimist rest config)) []))
      (fst (CommandRunner.run self (argv0 :: rest)))) /\
  (forall extra,
     args_ (Minimist rest config) !! k = Some extra ->
     calledBack (CommandRunner.run self (argv0 :: rest))
                (Some (new_UnexpectedArgError (Js.String_ extra))) /\
     Forall (fun ev => ~ isExecution ev) (fst (CommandRunner.run self (argv0 :: rest)))).
Proof.
  intros Hdash Hlookup Hadd Hhelp Hparse.
  rewrite (run_named _ _ _ Hdash).
  unfold calledBack, CommandRunner.runNamed, CommandRunner.runParsed, after, hookRun.
  rewrite Hlookup, Hadd, Hhelp, Hparse. simpl.
  destruct (nextNonOptionArgs_parts k (CommandRunner.stringArgs (Minimist rest config)))
    as (_ & Hleft & Hopts).
  simpl in Hleft, Hopts. split.
  - intros Hfew. rewrite Hleft, drop_ge by (by rewrite length_map). simpl.
    do 4 right. left. f_equal.
    rewrite (ParsedArgs_eta (snd _)), Hleft, Hopts.
    by rewrite drop_ge by (by rewrite length_map).
  - intros extra Hextra. rewrite Hleft.
    assert (Hk : map (fun arg => Js.Str (Js.String_ arg)) (args_ (Minimist rest config))
                 !! k = Some (Js.Str (Js.String_ extra))).
    { change (map ?f ?l) with (f <$> l). by rewrite list_lookup_fmap, Hextra. }
    rewrite (drop_S _ _ _ Hk). simpl. split; [auto 10|all_events].
Qed.

Lemma run_takes_positionals_witness :
  Js.firstIsDash "copy" = false /\
  args_ (@Minimist Sample.externals ["a"; "b"; "c"] CommandRunner.configOptions) !! 2%nat
    = Some (Js.Str "c") /\
  calledBack (@CommandRunner.run Sample.externals Sample.copier ["copy"; "a"; "b"; "c"])
             (Some (new_UnexpectedArgError "c")).
Proof.
  split; [reflexivity|]. split; [reflexivity|].
  exact (proj1 (proj2 (@run_takes_positionals Sample.externals Sample.copier "copy"
                         ["a"; "b"; "c"] (CommandSpec.setFirstOfGroup true Sample.copySpec)
                         CommandRunner.configOptions 2
                         eq_refl eq_refl eq_refl eq_refl (fun _ => eq_refl))
                      (Js.Str "c") eq_refl)).
Defined.

(** ** More on the help page *)

Lemma getHelp_loop_entries `{Externals} self rightMargin specs : forall help,
  fold_left (fun help spec =>
               let help := if CommandSpec._firstOfGroup spec
                           then help ++ Js.LF else help in
               help ++ CommandRunner.getHelpSummaryEntry self spec rightMargin)
            specs help =
  help ++ concatText (map (pageEntry self rightMargin) specs).
Proof.
  induction specs as [|spec rest IH]; intros help; simpl.
  - by rewrite text_app_nil_r.
  - rewrite IH. unfold pageEntry.
    destruct (CommandSpec._firstOfGroup spec); by rewrite !text_app_assoc.
Qed.

(** X17: the runner's own [getHelp] puts the page together from the three
    pieces as the runner's class has them, overridden or not: with a command
    registered, it returns the introduction, then for each spec in
    registration order its summary entry, after a blank line when the spec
    is flagged first of its group, then the trailer. *)
Theorem getHelp_pieces `{Externals} self rightMargin :
  CommandRunner.override_getHelp (CommandRunner.class self) = None ->
  CommandRunner.commandSpecs self <> [] ->
  CommandRunner.getHelp self rightMargin =
    CommandRunner.getHelpIntro self rightMargin ++
    concatText (map (pageEntry self rightMargin) (CommandRunner.commandSpecs self)) ++
    CommandRunner.getHelpTrailer self rightMargin.
Proof.
  intros Hhelp Hsome. unfold CommandRunner.getHelp, CommandRunner.base_getHelp.
  rewrite Hhelp. destruct (CommandRunner.commandSpecs self) as [|spec specs] eqn:Hspecs;
    [congruence|].
  by rewrite getHelp_loop_entries, text_app_assoc.
Qed.

Lemma getHelp_pieces_witness :
  CommandRunner.override_getHelp (CommandRunner.class Sample.runner) = None /\
  CommandRunner.commandSpecs Sample.runner <> [] /\
  @CommandRunner.getHelp Sample.externals Sample.runner 80 =
    "This tool supports the following commands:" ++ Js.LF ++ Js.LF ++
    "HELLO" ++ Js.LF ++ "  Says hello back to you" ++ Js.LF ++
    "DEPLOY <target>" ++ Js.LF ++ "  Deploys the target" ++ Js.LF ++ Js.LF.
Proof.
  assert (Hsome : CommandRunner.commandSpecs Sample.runner <> []) by discriminate.
  split; [reflexivity|]. split; [exact Hsome|].
  rewrite (@getHelp_pieces Sample.externals Sample.runner 80 eq_refl Hsome).
  reflexivity.
Defined.

(** X18: the help page of all commands holds, for every registered
    command that does not define [getHelp] itself, the very text that the
    command's own help ([name -h]) is made of. *)
Theorem getHelp_holds_command_help `{Externals} self rightMargin spec :
  CommandRunner.override_getHelp (CommandRunner.class self) = None ->
  In spec (CommandRunner.commandSpecs self) ->
  NamedCommand.getHelp (CommandSpec.createCommand spec) = None ->
  exists before after,
    CommandRunner.getHelp self rightMargin =
      before ++
      CommandRunner.commandHelp self spec (CommandSpec.createCommand spec) rightMargin
      ++ after.
Proof.
  intros Hhelp Hin Hown.
  assert (Hsome : CommandRunner.commandSpecs self <> []).
  { intros Hnil. rewrite Hnil in Hin. destruct Hin. }
  unfold CommandRunner.getHelp, CommandRunner.base_getHelp, CommandRunner.commandHelp.
  rewrite Hhelp, Hown.
  destruct (CommandRunner.commandSpecs self) as [|s0 specs0] eqn:Hspecs; [congruence|].
  rewrite getHelp_loop_entries.
  destruct (in_split _ _ Hin) as (l1 & l2 & ->).
  rewrite map_app, concatText_app. simpl. unfold pageEntry at 2.
  exists (CommandRunner.getHelpIntro self rightMargin ++
          concatText (map (pageEntry self rightMargin) l1) ++
          (if CommandSpec._firstOfGroup spec then Js.LF else EmptyString)),
         (concatText (map (pageEntry self rightMargin) l2) ++
          CommandRunner.getHelpTrailer self rightMargin).
  by rewrite !text_app_assoc.
Qed.

Lemma getHelp_holds_command_help_witness :
  CommandRunner.override_getHelp (CommandRunner.class Sample.runner) = None /\
  In (CommandSpec.setFirstOfGroup false Sample.refuseSpec)
     (CommandRunner.commandSpecs Sample.runner) /\
  NamedCommand.getHelp Sample.refuse = None /\
  exists before after,
    @CommandRunner.getHelp Sample.externals Sample.runner 80 =
      before ++ ("DEPLOY <target>" ++ Js.LF ++ "  Deploys the target" ++ Js.LF) ++ after.
Proof.
  assert (Hin : In (CommandSpec.setFirstOfGroup false Sample.refuseSpec)
                   (CommandRunner.commandSpecs Sample.runner)).
  { right. left. reflexivity. }
  split; [reflexivity|]. split; [exact Hin|]. split; [reflexivity|].
  exact (@getHelp_holds_command_help Sample.externals Sample.runner 80
           (CommandSpec.setFirstOfGroup false Sample.refuseSpec) eq_refl Hin eq_refl).
Defined.

(** ** Asking for confirmation *)

(** X19: what [confirm] tells [next] has never an error in it, the
    prompt's own error included, and confirms exactly when the answer is a
    letter-case variant of [y] or of [yes]; when the prompt hands no result,
    a [TypeError] is thrown and [next] is not called. *)
Theorem confirm_reply err :
  CommandUtil.confirmReply err None = Throw typeError /\
  forall yesno,
    exists confirmed,
      CommandUtil.confirmReply err (Some yesno) = OK (None, confirmed) /\
      (confirmed = true <-> Js.caseVariant yesno "y" \/ Js.caseVariant yesno "yes").
Proof.
  split; [reflexivity|]. intros yesno. unfold CommandUtil.confirmReply.
  eexists. split; [reflexivity|]. rewrite orb_true_iff, !String.eqb_eq. split.
  - intros [Hy | Hyes]; [left|right]; by apply toLowerCase_caseVariant.
  - intros [Hy | Hyes]; [left|right];
      by match goal with
         | Hv : Js.caseVariant _ _ |- _ => apply caseVariant_toLowerCase in Hv
         end.
Qed.

(** ** More on merging option configurations *)

(** X20: of a source, [addOptions] merges the four categories only: the
    other keys of the source never reach the destination, whose other keys
    stay as they are; and a source with none of the four categories leaves
    any destination unchanged and throws nothing. *)
Theorem addOptions_other_keys toOptions fromOptions :
  (forall r, CommandUtil.addOptions toOptions fromOptions = OK r ->
             others r = others toOptions) /\
  (alias fromOptions = None -> boolean fromOptions = None ->
   default fromOptions = None -> string_ fromOptions = None ->
   CommandUtil.addOptions toOptions fromOptions = OK toOptions).
Proof.
  destruct toOptions as [ta tb td ts tother], fromOptions as [fa fb fd fs fother].
  unfold CommandUtil.addOptions, CommandUtil.addAlias, CommandUtil.addBoolean,
    CommandUtil.addDefault, CommandUtil.addString. simpl. split.
  - intros r.
    destruct fa as [fa|], ta as [ta|]; simpl; try discriminate;
      destruct fb as [[b|s|bl]|], tb as [[b'|s'|bl']|]; simpl; try discriminate;
      destruct fd as [fd|]; simpl;
      destruct fs as [[s1|l1]|]; simpl; try discriminate;
      try (destruct ts as [[[|c1 s2]|l2]|]; simpl; try discriminate);
      by intros [= <-].
  - by intros -> -> -> ->.
Qed.

Lemma addOptions_other_keys_witness :
  CommandUtil.addOptions CommandRunner.configOptions
    (mkOpts None None None None {[ "stopEarly" := Js.Bool true ]})
  = OK CommandRunner.configOptions.
Proof.
  exact (proj2 (addOptions_other_keys CommandRunner.configOptions
                  (mkOpts None None None None {[ "stopEarly" := Js.Bool true ]}))
           eq_refl eq_refl eq_refl eq_refl).
Defined.

(** X21: [addOptions] throws nothing but a [TypeError], and only on a
    destination that lacks the alias object or the boolean array that [run]
    starts every configuration with, or whose [string] is a single name; a
    source with aliases always makes it throw on a destination without the
    alias object. *)
Theorem addOptions_throws toOptions fromOptions :
  (forall err, CommandUtil.addOptions toOptions fromOptions = Throw err ->
               err = typeError /\ ~ initialised toOptions) /\
  (alias toOptions = None -> alias fromOptions <> None ->
   CommandUtil.addOptions toOptions fromOptions = Throw typeError).
Proof.
  split.
  - intros err Hthrow. split.
    + revert Hthrow.
      destruct toOptions as [ta tb td ts tother], fromOptions as [fa fb fd fs fother].
      unfold CommandUtil.addOptions, CommandUtil.addAlias, CommandUtil.addBoolean,
        CommandUtil.addDefault, CommandUtil.addString. simpl.
      destruct fa as [fa|], ta as [ta|]; simpl; try (by intros [= <-]);
        destruct fb as [[b|s|bl]|], tb as [[b'|s'|bl']|]; simpl; try (by intros [= <-]);
        destruct fd as [fd|]; simpl;
        destruct fs as [[s1|l1]|]; simpl; try discriminate;
        try (destruct ts as [[[|c1 s2]|l2]|]; simpl; try discriminate);
        by intros [= <-].
    + intros Hinit.
      destruct (addOptions_initialised toOptions fromOptions Hinit) as (r & Hr & _).
      congruence.
  - intros Hto Hfrom. unfold CommandUtil.addOptions, CommandUtil.addAlias.
    rewrite Hto. by destruct (alias fromOptions).
Qed.

Lemma addOptions_throws_witness :
  alias (mkOpts None None None None ∅) = None /\
  alias Sample.haltOptions <> None /\
  CommandUtil.addOptions (mkOpts None None None None ∅) Sample.haltOptions
    = Throw typeError.
Proof.
  assert (Hfrom : alias Sample.haltOptions <> None) by discriminate.
  split; [reflexivity|]. split; [exact Hfrom|].
  exact (proj2 (addOptions_throws (mkOpts None None None None ∅) Sample.haltOptions)
           eq_refl Hfrom).
Defined.

(** X22: two contributors in a row.  Merging one source and then another
    into a configuration of [run] succeeds in either order; an alias or a
    default is that of the source merged last that declares the key, else
    that of the other source, else the destination's; the boolean and the
    string names are the same in both orders; and when the two sources
    declare no alias and no default of the same key with different values,
    both orders give the same settings. *)
Theorem addOptions_two_contributors toOptions first second :
  initialised toOptions ->
  exists r1 r12 r2 r21,
    CommandUtil.addOptions toOptions first = OK r1 /\
    CommandUtil.addOptions r1 second = OK r12 /\
    CommandUtil.addOptions toOptions second = OK r2 /\
    CommandUtil.addOptions r2 first = OK r21 /\
    (forall k, aliasMap r12 !! k =
               match aliasMap second !! k with
               | Some v => Some v
               | None => match aliasMap first !! k with
                         | Some v => Some v
                         | None => aliasMap toOptions !! k
                         end
               end) /\
    (forall k, defaultMap r12 !! k =
               match defaultMap second !! k with
               | Some v => Some v
               | None => match defaultMap first !! k with
                         | Some v => Some v
                         | None => defaultMap toOptions !! k
                         end
               end) /\
    (forall x, In x (booleanList r12) <-> In x (booleanList r21)) /\
    (forall x, In x (stringList r12) <-> In x (stringList r21)) /\
    ((forall k v w, aliasMap first !! k = Some v -> aliasMap second !! k = Some w ->
                    v = w) ->
     (forall k v w, defaultMap first !! k = Some v -> defaultMap second !! k = Some w ->
                    v = w) ->
     sameSettings r12 r21).
Proof.
  intros Hinit.
  destruct (addOptions_initialised toOptions first Hinit)
    as (r1 & Hr1 & Hi1 & Ha1 & Hd1 & Hb1 & Hs1 & _).
  destruct (addOptions_initialised r1 second Hi1)
    as (r12 & Hr12 & _ & Ha12 & Hd12 & Hb12 & Hs12 & _).
  destruct (addOptions_initialised toOptions second Hinit)
    as (r2 & Hr2 & Hi2 & Ha2 & Hd2 & Hb2 & Hs2 & _).
  destruct (addOptions_initialised r2 first Hi2)
    as (r21 & Hr21 & _ & Ha21 & Hd21 & Hb21 & Hs21 & _).
  exists r1, r12, r2, r21. do 4 (split; [assumption|]).
  assert (Hbool : forall x, In x (booleanList r12) <-> In x (booleanList r21)).
  { intros x. rewrite Hb12, Hb21, Hb1, Hb2, !in_app_iff. tauto. }
  assert (Hstr : forall x, In x (stringList r12) <-> In x (stringList r21)).
  { intros x. rewrite Hs12, Hs21, Hs1, Hs2, !in_app_iff. tauto. }
  split; [intros k; by rewrite Ha12, Ha1, !Object_assign_lookup|].
  split; [intros k; by rewrite Hd12, Hd1, !Object_assign_lookup|].
  split; [exact Hbool|]. split; [exact Hstr|].
  intros Halias Hdefault. unfold sameSettings.
  split; [|split; [|split; [exact Hbool|exact Hstr]]].
  - apply map_eq. intros k. rewrite Ha12, Ha21, Ha1, Ha2, !Object_assign_lookup.
    destruct (aliasMap first !! k) as [v|] eqn:Hv,
             (aliasMap second !! k) as [w|] eqn:Hw; try reflexivity.
    by rewrite (Halias k v w Hv Hw).
  - apply map_eq. intros k. rewrite Hd12, Hd21, Hd1, Hd2, !Object_assign_lookup.
    destruct (defaultMap first !! k) as [v|] eqn:Hv,
             (defaultMap second !! k) as [w|] eqn:Hw; try reflexivity.
    by rewrite (Hdefault k v w Hv Hw).
Qed.

Lemma addOptions_two_contributors_witness :
  initialised CommandRunner.configOptions /\
  exists r12,
    (exists r1, CommandUtil.addOptions CommandRunner.configOptions Sample.haltOptions = OK r1 /\
                CommandUtil.addOptions r1 Sample.verboseOptions = OK r12) /\
    aliasMap r12 !! "h" = Some (One "halt").
Proof.
  split; [exact configOptions_initialised|].
  destruct (addOptions_two_contributors CommandRunner.configOptions Sample.haltOptions
              Sample.verboseOptions configOptions_initialised)
    as (r1 & r12 & _ & _ & Hr1 & Hr12 & _ & _ & Halias & _).
  exists r12. split; [by exists r1|]. by rewrite Halias.
Defined.

Lemma lookup_registered_witness :
  CommandRunner.lookup (CommandRunner.commandSpecs Sample.runner) "deploy"
    = Some (CommandSpec.setFirstOfGroup false Sample.refuseSpec) /\
  In (CommandSpec.setFirstOfGroup false Sample.refuseSpec)
     (CommandRunner.commandSpecs Sample.runner).
Proof.
  assert (Hfound : CommandRunner.lookup (CommandRunner.commandSpecs Sample.runner) "deploy"
                   = Some (CommandSpec.setFirstOfGroup false Sample.refuseSpec))
    by reflexivity.
  split; [exact Hfound|].
  exact (proj1 (proj2 (lookup_registered (CommandRunner.commandSpecs Sample.runner)
                         "deploy") _ Hfound)).
Defined.
